(** * LogoHunter similarity engine: [similarity_cutoff] and [similar_matches]

    A shallow embedding of [src/similarity.py].  The timers and the
    [print] calls of the source have no effect on the returned values and
    are left out.  numpy arrays are modelled by [ndarray] (one- or
    two-dimensional), Python exceptions by the [result] type.

    The functions are embedded twice.  The first embedding idealises
    floating-point values as exact rationals ([Q]); it carries the
    properties that do not depend on how a product or a bin edge is
    rounded.  The second one, in [Binary64], holds every float64 value as
    the rational it denotes and rounds where the source rounds: the bin
    edges of [np.arange], the product [threshold * len(cs1)] and
    [np.round]; it carries the properties that do depend on it. *)

From Stdlib Require Import String.
From Stdlib Require Import List ZArith QArith Qround Qabs Bool Lia Sorted PeanoNat.
From Stdlib Require Import Permutation Lqa.
Import ListNotations.

Close Scope Q_scope.

(** ** Exceptions and the error monad *)

(** The exceptions the two functions can raise. *)
Inductive exn : Type :=
| AssertionError (msg : string)
| IndexError
| ValueError.

(** Outcome of a call: a returned value or a raised exception. *)
Inductive result (A : Type) : Type :=
| Ok (a : A)
| Raise (e : exn).

Arguments Ok {A} a.
Arguments Raise {A} e.

Definition bind {A B : Type} (r : result A) (k : A -> result B) : result B :=
  match r with
  | Ok a => k a
  | Raise e => Raise e
  end.

Notation "x <- r ;; k" := (bind r (fun x => k))
  (at level 61, r at next level, right associativity).
Notation "r ;;; k" := (bind r (fun _ => k))
  (at level 61, right associativity).

(** [assert cond, msg] *)
Definition assert (cond : bool) (msg : string) : result unit :=
  if cond then Ok tt else Raise (AssertionError msg).

(** [for x in l: s = body(x, s)], stopping at the first exception. *)
Fixpoint for_each {A S : Type} (l : list A) (body : A -> S -> result S) (s : S)
  : result S :=
  match l with
  | [] => Ok s
  | x :: l' => s' <- body x s ;; for_each l' body s'
  end.

(** ** numpy arrays *)

(** A two-dimensional array of shape [(length mrows, ncols)]. *)
Record matrix : Type := Matrix { ncols : nat; mrows : list (list Q) }.

(** The arrays the functions receive: [np.array([])] and the other
    one-dimensional arrays, or a two-dimensional feature matrix. *)
Inductive ndarray : Type :=
| Arr1 (xs : list Q)
| Arr2 (m : matrix).

(** [len(a)] *)
Definition len (a : ndarray) : nat :=
  match a with
  | Arr1 xs => length xs
  | Arr2 m => length (mrows m)
  end.

(** [a.shape[1]]: a one-dimensional array has a one-element shape tuple. *)
Definition shape1 (a : ndarray) : result nat :=
  match a with
  | Arr1 _ => Raise IndexError
  | Arr2 m => Ok (ncols m)
  end.

(** [l[i]] on a list or a one-dimensional array, for [i >= 0]. *)
Definition getitem {A : Type} (l : list A) (i : nat) : result A :=
  match nth_error l i with
  | Some x => Ok x
  | None => Raise IndexError
  end.

(** [l[-1]] *)
Fixpoint getitem_last {A : Type} (l : list A) : result A :=
  match l with
  | [] => Raise IndexError
  | [x] => Ok x
  | _ :: l' => getitem_last l'
  end.

(** [a[idx]] for an index array [idx] (numpy fancy indexing). *)
Fixpoint getitems {A : Type} (a : list A) (idx : list nat) : result (list A) :=
  match idx with
  | [] => Ok []
  | i :: idx' =>
      x <- getitem a i ;;
      xs <- getitems a idx' ;;
      Ok (x :: xs)
  end.

(** ** The numpy primitives used by the source *)

Definition Qlt_bool (x y : Q) : bool := negb (Qle_bool y x).

(** [np.arange(start, stop, step)] for [step > 0]:
    [ceil((stop - start) / step)] values [start + k * step]. *)
Definition np_arange (start stop step : Q) : list Q :=
  map (fun k => start + inject_Z (Z.of_nat k) * step)%Q
      (seq 0 (Z.to_nat (Qceiling ((stop - start) / step)))).

(** Number of elements of [a] satisfying [p]. *)
Definition count (p : Q -> bool) (a : list Q) : nat := length (filter p a).

(** Bin counts for increasing edges [lo :: edges]: every bin is half-open
    [[lo, hi)] except the last one, which is closed [[lo, hi]]. *)
Fixpoint histogram_counts (a : list Q) (lo : Q) (edges : list Q) : list nat :=
  match edges with
  | [] => []
  | hi :: rest =>
      match rest with
      | [] => [count (fun x => Qle_bool lo x && Qle_bool x hi) a]
      | _ :: _ =>
          count (fun x => Qle_bool lo x && Qlt_bool x hi) a
            :: histogram_counts a hi rest
      end
  end.

(** [np.histogram(a, bins=edges)] returns the counts and the edges. *)
Definition np_histogram (a : list Q) (edges : list Q) : list nat * list Q :=
  match edges with
  | [] => ([], edges)
  | lo :: rest => (histogram_counts a lo rest, edges)
  end.

Fixpoint cumsum_from (acc : nat) (l : list nat) : list nat :=
  match l with
  | [] => []
  | x :: l' => (acc + x) :: cumsum_from (acc + x) l'
  end.

(** [np.cumsum(l)] *)
Definition np_cumsum (l : list nat) : list nat := cumsum_from 0 l.

Fixpoint where_from (i : nat) (mask : list bool) : list nat :=
  match mask with
  | [] => []
  | b :: mask' =>
      if b then i :: where_from (S i) mask' else where_from (S i) mask'
  end.

(** [np.where(mask)[0]]: the indices at which a one-dimensional boolean
    array is true. *)
Definition np_where (mask : list bool) : list nat := where_from 0 mask.

(** Rounding to the nearest integer, ties to the even one. *)
Definition rint (x : Q) : Z :=
  let f := Qfloor x in
  match (x - inject_Z f ?= 1 # 2)%Q with
  | Lt => f
  | Gt => (f + 1)%Z
  | Eq => if Z.even f then f else (f + 1)%Z
  end.

(** [np.round(x, 3)] on one entry. *)
Definition round3 (x : Q) : Q := Qmake (rint (x * 1000)%Q) 1000.

(** [np.round(m, 3)] *)
Definition np_round3 (m : matrix) : matrix :=
  Matrix (ncols m) (map (map round3) (mrows m)).

(** ** The functions of [similarity.py] *)

Section Similarity.

(** Modelled from the spec: [cosine_similarity] is imported from
    scikit-learn and is not part of the repository.  The glossary gives
    it as the dot product of two vectors divided by the product of their
    magnitudes; as that involves a square root, the similarity of two
    rows is taken as a parameter. *)
Variable cosine : list Q -> list Q -> Q.

(** Modelled from the spec: [cosine_similarity(X, Y)] for [X] of shape
    [(Q, F)] and [Y] of shape [(C, F)] is the [Q x C] matrix of the
    similarities of every row of [X] with every row of [Y]; arrays that
    are not two-dimensional or differ in width are refused. *)
Definition cosine_similarity (X Y : ndarray) : result matrix :=
  match X, Y with
  | Arr2 x, Arr2 y =>
      if ncols x =? ncols y
      then Ok (Matrix (length (mrows y))
                      (map (fun u => map (cosine u) (mrows y)) (mrows x)))
      else Raise ValueError
  | _, _ => Raise ValueError
  end.

(** Body of the loop of [similarity_cutoff] for one row [cs1] of the
    similarity matrix (lines 55-56). *)
Definition row_cutoff (threshold : Q) (cs1 : list Q) : result Q :=
  let '(hist, bins) := np_histogram cs1 (np_arange 0 1 (1 # 1000))%Q in
  let mask :=
    map (fun c => Qlt_bool (inject_Z (Z.of_nat c))
                           (threshold * inject_Z (Z.of_nat (length cs1)))%Q)
        (np_cumsum hist) in
  sel <- getitems bins (np_where mask) ;;
  getitem_last sel.

Definition similarity_cutoff (feat_input features : ndarray) (threshold : Q)
  : result (list Q) :=
  cs <- cosine_similarity feat_input features ;;
  for_each (mrows cs)
    (fun cs1 cutoff_list =>
       cutoff <- row_cutoff threshold cs1 ;;
       Ok (cutoff_list ++ [cutoff]))
    [].

(** The match list is [np.array([])] on the early return and a list of
    index arrays otherwise; both are modelled as [list (list nat)]. *)
Definition similar_matches (feat_input features_cand : ndarray)
           (cutoff_list : list Q) : result (list (list nat) * ndarray) :=
  if len features_cand =? 0 then Ok ([], Arr1 []) else
  fi <- shape1 feat_input ;;
  fc <- shape1 features_cand ;;
  assert (fi =? fc) "matrices should have same columns" ;;;
  assert (length cutoff_list =? len feat_input)
         "there should be one similarity cutoff for each input logo" ;;;
  cos_sim <- cosine_similarity feat_input features_cand ;;
  let cos_sim := np_round3 cos_sim in
  match_indices <-
    for_each (seq 0 (len feat_input))
      (fun i match_indices =>
         row <- getitem (mrows cos_sim) i ;;
         cutoff <- getitem cutoff_list i ;;
         let matches := np_where (map (fun s => Qle_bool cutoff s) row) in
         Ok (match_indices ++ [matches]))
      [] ;;
  Ok (match_indices, Arr2 cos_sim).

End Similarity.

(** A concrete similarity for examples: on unit vectors the cosine
    similarity is the dot product. *)
Fixpoint dot (u v : list Q) : Q :=
  match u, v with
  | x :: u', y :: v' => (x * y + dot u' v')%Q
  | _, _ => 0%Q
  end.

(** ** Auxiliary definitions for the statements *)

(** [[g(x) for x in l]], stopping at the first exception. *)
Fixpoint collect {A B : Type} (g : A -> result B) (l : list A) : result (list B) :=
  match l with
  | [] => Ok []
  | x :: l' => y <- g x ;; ys <- collect g l' ;; Ok (y :: ys)
  end.

(** The [k]-th bin edge of [np.arange(0, 1, 0.001)]. *)
Definition edge (k : nat) : Q := Z.of_nat k # 1000.

(** Membership of a similarity in bin [k] of the histogram built on those
    edges: 999 bins, half-open except the last, [[0.998, 0.999]]. *)
Definition in_bin (k : nat) (x : Q) : bool :=
  Qle_bool (edge k) x
  && (if k =? 998 then Qle_bool x (edge (S k)) else Qlt_bool x (edge (S k))).

Definition bin_count (cs1 : list Q) (k : nat) : nat := count (in_bin k) cs1.

(** Cumulative count of bins [0..k]. *)
Fixpoint cum_count (cs1 : list Q) (k : nat) : nat :=
  match k with
  | 0 => bin_count cs1 0
  | S k' => cum_count cs1 k' + bin_count cs1 k
  end.

(** [cumsum(hist)[k] < threshold * len(cs1)] *)
Definition below (threshold : Q) (cs1 : list Q) (k : nat) : bool :=
  Qlt_bool (inject_Z (Z.of_nat (cum_count cs1 k)))
           (threshold * inject_Z (Z.of_nat (length cs1)))%Q.

(** The matrix [np.round(cosine_similarity(X, Y), 3)]. *)
Definition rounded_similarity (cosine : list Q -> list Q -> Q) (X Y : matrix)
  : matrix :=
  Matrix (length (mrows Y))
         (map (fun x => map (fun y => round3 (cosine x y)) (mrows Y)) (mrows X)).

(** The cutoff as the specification words it, for comparison with the
    source: a histogram over [[0, 1)] in 1000 half-open bins of width
    0.001, cumulative counts in ascending order, and the left edge of the
    highest bin whose cumulative count is strictly below [threshold * B]. *)
Definition cutoff_as_specified (threshold : Q) (cs1 : list Q) : option Q :=
  let hist :=
    map (fun k => count (fun x => Qle_bool (edge k) x
                                  && Qlt_bool x (edge (S k))) cs1)
        (seq 0 1000) in
  let cum := np_cumsum hist in
  let ok c := Qlt_bool (inject_Z (Z.of_nat c))
                       (threshold * inject_Z (Z.of_nat (length cs1)))%Q in
  match rev (filter (fun k => ok (nth k cum 0)) (seq 0 1000)) with
  | [] => None
  | k :: _ => Some (edge k)
  end.

Definition shape_mismatch : exn :=
  AssertionError "matrices should have same columns".

Definition cardinality_mismatch : exn :=
  AssertionError "there should be one similarity cutoff for each input logo".

(** ** [features_from_image] *)

(** The array a model returns for a batch of images: one feature map per
    image, of shape [tdim :: tdims] (at least one feature axis), each held
    flat in row-major order. *)
Record tensor : Type :=
  Tensor { tdim : nat; tdims : list nat; titems : list (list Q) }.

(** Outcome of [features_from_image]: the division by [batch_size] is the
    only operation of its own that can raise. *)
Inductive outcome (A : Type) : Type :=
| Returned (a : A)
| ZeroDivisionError.

Arguments Returned {A} a.
Arguments ZeroDivisionError {A}.

Section Features.

Variables image generator model preprocess : Type.

(** The batch generator of [utils], which is not part of the sources at
    hand, and the prediction of the keras model are parameters. *)
Variable chunks : list image -> nat -> preprocess -> generator.

Variable predict_generator : model -> generator -> nat -> tensor.

(** [len(img_array)//batch_size + 1] *)
Definition steps_for (n batch_size : nat) : nat := n / batch_size + 1.

Definition features_from_image (img_array : list image) (m : model)
           (preprocess_ : preprocess) (batch_size : nat) : outcome ndarray :=
  if length img_array =? 0 then Returned (Arr1 []) else
  if batch_size =? 0 then ZeroDivisionError else
  let steps := steps_for (length img_array) batch_size in
  let img_gen := chunks img_array batch_size preprocess_ in
  let features := predict_generator m img_gen steps in
  let features :=
    Tensor (tdim features) (tdims features)
           (firstn (length img_array) (titems features)) in
  Returned (Arr2 (Matrix (tdim features * fold_right Nat.mul 1 (tdims features))
                         (titems features))).

End Features.

Arguments features_from_image {image generator model preprocess}.

(** ** [draw_matches] *)

(** The colour table as an array: [np.array(colors)] is one-dimensional
    for an empty table and two-dimensional for a list of colour tuples. *)
Inductive color_array : Type :=
| Colors1 (c : list Z)
| Colors2 (rows : list (list Z)).

(** [colors[:, ::-1]] *)
Definition reverse_channels (colors : color_array) : result (list (list Z)) :=
  match colors with
  | Colors1 _ => Raise IndexError
  | Colors2 rows => Ok (map (@rev Z) rows)
  end.

(** [l[i].append(b)] *)
Fixpoint append_at {A : Type} (l : list (list A)) (i : nat) (b : A)
  : result (list (list A)) :=
  match l, i with
  | [], _ => Raise IndexError
  | r :: l', 0 => Ok ((r ++ [b]) :: l')
  | r :: l', S i' => l'' <- append_at l' i' b ;; Ok (r :: l'')
  end.

Section Rendering.

Variables bbox label image_array pil_image : Type.

(** [Image.fromarray] and [np.array] on an image. *)
Variable Image_fromarray : image_array -> pil_image.

Variable array_of_image : pil_image -> image_array.

(** The palette and the drawing routine of [utils], which is not part of
    the sources at hand, are parameters. *)
Variable bbox_colors : nat -> color_array.

Variable draw_annotated_box :
  pil_image -> list (list bbox) -> list label -> list (list Z) -> pil_image.

(** [matches[i][0]] is the index array of query [i]; as in
    [similar_matches], the list of one-element tuples is modelled as the
    list of their index arrays. *)
Definition draw_matches (img_test : image_array) (inputs : list label)
           (prediction : list bbox) (matches : list (list nat))
  : result image_array :=
  if length prediction =? 0 then Ok img_test else
  let image := Image_fromarray img_test in
  colors <- reverse_channels (bbox_colors (length inputs)) ;;
  match_bbox_list_list <-
    for_each (seq 0 (length inputs))
      (fun i match_bbox_list_list =>
         let match_bbox_list_list := match_bbox_list_list ++ [[]] in
         indices <- getitem matches i ;;
         for_each indices
           (fun match_ match_bbox_list_list =>
              box <- getitem prediction match_ ;;
              append_at match_bbox_list_list i box)
           match_bbox_list_list)
      [] ;;
  let new_image := draw_annotated_box image match_bbox_list_list inputs colors in
  Ok (array_of_image new_image).

End Rendering.

Arguments draw_matches {bbox label image_array pil_image}.

(** The boxes [draw_matches] looks up for one query: [prediction[c]] for
    every index [c] of the query's index array, in order. *)
Definition boxes_of {bbox : Type} (prediction : list bbox)
           (matches : list (list nat)) (i : nat) : result (list bbox) :=
  indices <- getitem matches i ;; collect (getitem prediction) indices.

(** Similarities counted by the cumulative histogram up to bin [k]: the
    range [[0, (k+1)/1000)], closed on the right for the last bin. *)
Definition upto (k : nat) (x : Q) : bool :=
  Qle_bool (edge 0) x
  && (if k =? 998 then Qle_bool x (edge (S k)) else Qlt_bool x (edge (S k))).

(** ** Data for concrete runs *)

(** One query, three candidates with similarities 0.6, 0 and 0.8. *)
Definition example_query : matrix := Matrix 2 [[1; 0]]%Q.

Definition example_rows : matrix :=
  Matrix 2 [[3 # 5; 4 # 5]; [0; 1]; [4 # 5; 3 # 5]]%Q.

(** A palette of [n] copies of one colour. *)
Definition example_colors (n : nat) : color_array :=
  Colors2 (repeat [255; 0; 0]%Z n).

(** A drawing routine that records the number of boxes it was given. *)
Definition example_draw (img : nat) (boxes : list (list nat))
           (labels : list nat) (colors : list (list Z)) : nat :=
  img + length (concat boxes).

(** A model that returns two-dimensional feature maps, two per step. *)
Definition example_predict (m : unit) (gen : list nat) (steps : nat) : tensor :=
  Tensor 2 [] (repeat [0; 1]%Q (steps * 2)).

(** ** The same functions in binary64 arithmetic *)

Module Binary64.

(** [floor(log2 |x|)] for [x <> 0]. *)
Definition binade (x : Q) : Z :=
  let k := (Z.log2 (Z.abs (Qnum x)) - Z.log2 (Zpos (Qden x)))%Z in
  if Qle_bool (2 ^ k)%Q (Qabs x) then k else (k - 1)%Z.

(** The float64 nearest to [x], ties to the even significand: 53
    significant bits, exponents from -1022, gradual underflow.  Overflow
    is left out: the values rounded here stay below [2^1024]. *)
Definition fl (x : Q) : Q :=
  if Qeq_bool x 0 then 0%Q else
  let e := Z.max (binade x) (-1022) in
  let ulp := (2 ^ (e - 52))%Q in
  Qred (inject_Z (rint (x / ulp)) * ulp).

(** [np.arange(start, stop, step)] on float64: [ceil((stop - start) / step)]
    values; numpy stores [start] and [start + step] and fills the rest
    with [start + i * delta], [delta] being the difference of the first
    two. *)
Definition np_arange (start stop step : Q) : list Q :=
  let first := fl start in
  let next := fl (start + step) in
  let delta := fl (next - first) in
  map (fun i =>
         match i with
         | 0 => first
         | 1 => next
         | _ => fl (first + fl (inject_Z (Z.of_nat i) * delta))
         end)
      (seq 0 (Z.to_nat (Qceiling (fl (fl (stop - start) / step))))).

(** [np.round(x, 3)] on one float64 entry: [rint(x * 1000) / 1000], the
    product and the quotient rounded. *)
Definition round3 (x : Q) : Q :=
  fl (inject_Z (rint (fl (x * 1000))) / 1000).

(** [np.round(m, 3)] *)
Definition np_round3 (m : matrix) : matrix :=
  Matrix (ncols m) (map (map round3) (mrows m)).

Section Similarity.

(** The similarity of two rows, as for the first embedding; its values
    are float64. *)
Variable cosine : list Q -> list Q -> Q.

(** Body of the loop of [similarity_cutoff] (lines 55-56): [0.001] is the
    float64 nearest to 1/1000, the counts and [len(cs1)] convert to
    float64 exactly, their product with [threshold] is rounded, and the
    comparisons of float64 values are exact. *)
Definition row_cutoff (threshold : Q) (cs1 : list Q) : result Q :=
  let '(hist, bins) := np_histogram cs1 (np_arange 0 1 (fl (1 # 1000))) in
  let mask :=
    map (fun c => Qlt_bool (inject_Z (Z.of_nat c))
                           (fl (threshold * inject_Z (Z.of_nat (length cs1)))))
        (np_cumsum hist) in
  sel <- getitems bins (np_where mask) ;;
  getitem_last sel.

Definition similarity_cutoff (feat_input features : ndarray) (threshold : Q)
  : result (list Q) :=
  cs <- cosine_similarity cosine feat_input features ;;
  for_each (mrows cs)
    (fun cs1 cutoff_list =>
       cutoff <- row_cutoff threshold cs1 ;;
       Ok (cutoff_list ++ [cutoff]))
    [].

Definition similar_matches (feat_input features_cand : ndarray)
           (cutoff_list : list Q) : result (list (list nat) * ndarray) :=
  if len features_cand =? 0 then Ok ([], Arr1 []) else
  fi <- shape1 feat_input ;;
  fc <- shape1 features_cand ;;
  assert (fi =? fc) "matrices should have same columns" ;;;
  assert (length cutoff_list =? len feat_input)
         "there should be one similarity cutoff for each input logo" ;;;
  cos_sim <- cosine_similarity cosine feat_input features_cand ;;
  let cos_sim := np_round3 cos_sim in
  match_indices <-
    for_each (seq 0 (len feat_input))
      (fun i match_indices =>
         row <- getitem (mrows cos_sim) i ;;
         cutoff <- getitem cutoff_list i ;;
         let matches := np_where (map (fun s => Qle_bool cutoff s) row) in
         Ok (match_indices ++ [matches]))
      [] ;;
  Ok (match_indices, Arr2 cos_sim).

End Similarity.

(** The [k]-th bin edge: [k * 0.001] in float64. *)
Definition edge (k : nat) : Q := fl (inject_Z (Z.of_nat k) * fl (1 # 1000)).

(** Membership of a similarity in bin [k] of the histogram built on those
    edges: 999 bins, half-open except the last. *)
Definition in_bin (k : nat) (x : Q) : bool :=
  Qle_bool (edge k) x
  && (if k =? 998 then Qle_bool x (edge (S k)) else Qlt_bool x (edge (S k))).

Definition bin_count (cs1 : list Q) (k : nat) : nat := count (in_bin k) cs1.

(** Cumulative count of bins [0..k]. *)
Fixpoint cum_count (cs1 : list Q) (k : nat) : nat :=
  match k with
  | 0 => bin_count cs1 0
  | S k' => cum_count cs1 k' + bin_count cs1 k
  end.

(** The bound [threshold * len(cs1)] as the source computes it. *)
Definition bound (threshold : Q) (cs1 : list Q) : Q :=
  fl (threshold * inject_Z (Z.of_nat (length cs1))).

(** [cumsum(hist)[k] < threshold * len(cs1)] *)
Definition below (threshold : Q) (cs1 : list Q) (k : nat) : bool :=
  Qlt_bool (inject_Z (Z.of_nat (cum_count cs1 k))) (bound threshold cs1).

(** Bin [k] has a cumulative count strictly below the bound. *)
Definition bin_below (threshold : Q) (cs1 : list Q) (k : nat) : Prop :=
  (inject_Z (Z.of_nat (cum_count cs1 k)) < bound threshold cs1)%Q.

(** [c] is the left edge of the highest of the 999 bins whose cumulative
    count is strictly below the bound. *)
Definition is_cutoff (threshold : Q) (cs1 : list Q) (c : Q) : Prop :=
  exists k, k < 999 /\ c = edge k /\ bin_below threshold cs1 k
            /\ forall j, k < j < 999 -> ~ bin_below threshold cs1 j.

(** Similarities counted by the cumulative histogram up to bin [k]: those
    between 0 and the right edge of bin [k], which is included for the
    last bin only. *)
Definition upto (k : nat) (x : Q) : bool :=
  Qle_bool (edge 0) x
  && (if k =? 998 then Qle_bool x (edge (S k)) else Qlt_bool x (edge (S k))).

(** The matrix [np.round(cosine_similarity(X, Y), 3)]. *)
Definition rounded_similarity (cosine : list Q -> list Q -> Q) (X Y : matrix)
  : matrix :=
  Matrix (length (mrows Y))
         (map (fun x => map (fun y => round3 (cosine x y)) (mrows Y)) (mrows X)).

(** [ms] holds, for every query index [q], the candidate indices whose
    rounded similarity with query [q] is at least [cutoff_list[q]], in
    ascending order. *)
Definition match_sets (cosine : list Q -> list Q -> Q) (X Y : matrix)
           (cutoff_list : list Q) (ms : list (list nat)) : Prop :=
  forall q x cutoff,
    nth_error (mrows X) q = Some x ->
    nth_error cutoff_list q = Some cutoff ->
    exists m,
      nth_error ms q = Some m
      /\ StronglySorted lt m
      /\ forall c, In c m
                   <-> exists y, nth_error (mrows Y) c = Some y
                                 /\ (cutoff <= round3 (cosine x y))%Q.

(** A float64 similarity for concrete runs: the rounded dot product. *)
Definition dot64 (u v : list Q) : Q := fl (dot u v).

End Binary64.

(** Adjacent elements increase strictly. *)
Fixpoint increasingb (l : list Q) : bool :=
  match l with
  | x :: (y :: _) as t => Qlt_bool x y && increasingb t
  | _ => true
  end.

(** One query, and three unit rows with float64 entries whose
    similarities with it are 0.6, 0 and 0.8. *)
Definition example_rows64 : matrix :=
  Matrix 2 [[Binary64.fl (3 # 5); Binary64.fl (4 # 5)]; [0; 1];
            [Binary64.fl (4 # 5); Binary64.fl (3 # 5)]]%Q.

(** ** The error monad and the loops *)

Lemma bind_Ok_inv {A B : Type} (r : result A) (k : A -> result B) (b : B) :
  bind r k = Ok b -> exists a, r = Ok a /\ k a = Ok b.
Proof.
  destruct r as [a|e]; simpl; intros H; [exists a; auto | discriminate].
Qed.

(** A loop that appends one computed item per iteration is a [collect]. *)
Lemma for_each_append {A B : Type} (g : A -> result B) (l : list A) :
  forall acc,
    for_each l (fun x s => y <- g x ;; Ok (s ++ [y])) acc
    = ys <- collect g l ;; Ok (acc ++ ys).
Proof.
  induction l as [|x l IH]; intros acc; simpl.
  - now rewrite app_nil_r.
  - destruct (g x) as [y|e]; simpl; [|reflexivity].
    rewrite IH. destruct (collect g l) as [ys|e]; simpl; [|reflexivity].
    now rewrite <- app_assoc.
Qed.

Lemma collect_ext {A B : Type} (g h : A -> result B) (l : list A) :
  (forall x, In x l -> g x = h x) -> collect g l = collect h l.
Proof.
  induction l as [|x l IH]; intros H; simpl; [reflexivity|].
  rewrite (H x (or_introl eq_refl)), IH; [reflexivity|].
  intros y Hy. apply H. now right.
Qed.


Lemma collect_Ok_Forall2 {A B : Type} (g : A -> result B) (l : list A) :
  forall ys, collect g l = Ok ys -> Forall2 (fun x y => g x = Ok y) l ys.
Proof.
  induction l as [|x l IH]; simpl; intros ys H.
  - injection H as <-. constructor.
  - apply bind_Ok_inv in H as (y & Hy & H).
    apply bind_Ok_inv in H as (ys' & Hys & H).
    injection H as <-. constructor; auto.
Qed.

Lemma Forall2_collect {A B : Type} (g : A -> result B) (l : list A) (ys : list B) :
  Forall2 (fun x y => g x = Ok y) l ys -> collect g l = Ok ys.
Proof.
  induction 1 as [|x y l ys Hxy _ IH]; simpl; [reflexivity|].
  now rewrite Hxy, IH.
Qed.

(** When every item either succeeds or raises [e], and one raises it, the
    whole collection raises [e]. *)
Lemma collect_raises {A B : Type} (g : A -> result B) (e : exn) (l : list A) :
  Forall (fun x => forall e', g x = Raise e' -> e' = e) l ->
  Exists (fun x => g x = Raise e) l ->
  collect g l = Raise e.
Proof.
  induction l as [|x l IH]; intros Hall Hex; [inversion Hex|].
  inversion Hall as [|? ? Hx Hl]; subst. simpl.
  destruct (g x) as [y|e'] eqn:Hg; simpl.
  - inversion Hex as [? ? Hbad|? ? Hrest]; subst; [congruence|].
    now rewrite (IH Hl Hrest).
  - now rewrite (Hx e' eq_refl).
Qed.

(** ** Indexing *)

Lemma getitem_last_map {A B : Type} (f : A -> B) (l : list A) :
  getitem_last (map f l) = x <- getitem_last l ;; Ok (f x).
Proof.
  induction l as [|x [|y l] IH]; try reflexivity.
  exact IH.
Qed.

Lemma getitem_last_In {A : Type} (l : list A) (x : A) :
  getitem_last l = Ok x -> In x l.
Proof.
  induction l as [|y [|z l] IH]; intros H.
  - discriminate.
  - injection H as <-. now left.
  - right. now apply IH.
Qed.

Lemma getitem_last_nonempty {A : Type} (l : list A) :
  l <> [] -> exists x, getitem_last l = Ok x.
Proof.
  induction l as [|y [|z l] IH]; intros H.
  - contradiction.
  - now exists y.
  - apply IH. discriminate.
Qed.

Lemma getitem_last_empty {A : Type} (l : list A) (e : exn) :
  getitem_last l = Raise e -> l = [] /\ e = IndexError.
Proof.
  induction l as [|y [|z l] IH]; intros H.
  - injection H as <-. auto.
  - discriminate.
  - destruct (IH H) as [Hnil _]. discriminate.
Qed.

(** The last item of an increasing list is its greatest. *)
Lemma getitem_last_greatest (l : list nat) (k : nat) :
  StronglySorted lt l -> getitem_last l = Ok k ->
  forall j, In j l -> j <= k.
Proof.
  induction l as [|y [|z l] IH]; intros Hs H j Hj.
  - contradiction.
  - injection H as <-. destruct Hj as [<-|[]]. lia.
  - inversion Hs as [|? ? Hs' Hall]; subst.
    change (getitem_last (z :: l) = Ok k) in H.
    destruct Hj as [<-|Hj]; [|now apply IH].
    apply getitem_last_In in H.
    rewrite Forall_forall in Hall. specialize (Hall k H). lia.
Qed.

Lemma getitems_map {A : Type} (f : nat -> A) (a : list A) (idx : list nat) :
  (forall i, In i idx -> nth_error a i = Some (f i)) ->
  getitems a idx = Ok (map f idx).
Proof.
  induction idx as [|i idx IH]; intros H; simpl; [reflexivity|].
  unfold getitem. rewrite (H i (or_introl eq_refl)). simpl.
  rewrite IH; [reflexivity|]. intros j Hj. apply H. now right.
Qed.

(** ** [np.where] *)

Lemma where_from_In (mask : list bool) :
  forall i k, In k (where_from i mask)
              <-> i <= k /\ nth_error mask (k - i) = Some true.
Proof.
  induction mask as [|b mask IH]; intros i k; simpl.
  - split; [contradiction|]. intros [_ H]. destruct (k - i); discriminate.
  - assert (Hs : In k (where_from (S i) mask)
                 <-> i <= k /\ nth_error (b :: mask) (k - i) = Some true
                     /\ k <> i).
    { rewrite IH. split.
      - intros [Hle H]. replace (k - i) with (S (k - S i)) by lia.
        simpl. repeat split; auto; lia.
      - intros (Hle & H & Hne).
        replace (k - i) with (S (k - S i)) in H by lia. simpl in H.
        split; auto; lia. }
    destruct b; simpl; rewrite Hs.
    + split.
      * intros [<-|(Hle & H & _)]; [rewrite Nat.sub_diag; auto | auto].
      * intros [Hle H]. destruct (Nat.eq_dec k i) as [->|Hne]; auto.
    + split.
      * intros (Hle & H & _). auto.
      * intros [Hle H]. repeat split; auto. intros ->.
        rewrite Nat.sub_diag in H. discriminate.
Qed.

Lemma where_from_sorted (mask : list bool) :
  forall i, StronglySorted lt (where_from i mask).
Proof.
  induction mask as [|b mask IH]; intros i; simpl; [constructor|].
  destruct b; [|apply IH].
  constructor; [apply IH|].
  apply Forall_forall. intros k Hk. apply where_from_In in Hk. lia.
Qed.

Lemma np_where_In (mask : list bool) (k : nat) :
  In k (np_where mask) <-> nth_error mask k = Some true.
Proof.
  unfold np_where. rewrite where_from_In, Nat.sub_0_r.
  split; [now intros [_ H] | intros H; split; [lia | exact H]].
Qed.

(** [np.where(mask)[0][-1]] is the highest index at which [mask] holds. *)
Lemma last_where_Ok (mask : list bool) (k : nat) :
  getitem_last (np_where mask) = Ok k
  <-> nth_error mask k = Some true
      /\ forall j, k < j -> nth_error mask j <> Some true.
Proof.
  split.
  - intros H. split.
    + apply np_where_In. now apply getitem_last_In.
    + intros j Hlt Hj. apply np_where_In in Hj.
      pose proof (getitem_last_greatest _ _ (where_from_sorted mask 0) H j Hj).
      lia.
  - intros [Hk Hmax].
    destruct (getitem_last_nonempty (np_where mask)) as [k' Hk'].
    { intros Hnil. apply np_where_In in Hk. rewrite Hnil in Hk. contradiction. }
    pose proof (getitem_last_In _ _ Hk') as Hin. apply np_where_In in Hin.
    apply np_where_In in Hk.
    pose proof (getitem_last_greatest _ _ (where_from_sorted mask 0) Hk' k Hk).
    destruct (Nat.eq_dec k k') as [->|Hne]; [exact Hk'|].
    exfalso. apply (Hmax k'); [lia | exact Hin].
Qed.

Lemma last_where_Raise (mask : list bool) (e : exn) :
  getitem_last (np_where mask) = Raise e
  <-> e = IndexError /\ forall j, nth_error mask j <> Some true.
Proof.
  split.
  - intros H. apply getitem_last_empty in H as [Hnil ->]. split; [reflexivity|].
    intros j Hj. apply np_where_In in Hj. rewrite Hnil in Hj. contradiction.
  - intros [-> Hnone].
    destruct (np_where mask) as [|i l] eqn:Hw; [reflexivity|].
    exfalso. apply (Hnone i). apply np_where_In. rewrite Hw. now left.
Qed.

(** ** The histogram of [similarity_cutoff] *)

Lemma Qlt_bool_iff (x y : Q) : Qlt_bool x y = true <-> (x < y)%Q.
Proof.
  unfold Qlt_bool. rewrite negb_true_iff. split.
  - intros H. apply Qnot_le_lt. intros Hle.
    apply Qle_bool_iff in Hle. congruence.
  - intros H. destruct (Qle_bool y x) eqn:E; [|reflexivity].
    apply Qle_bool_iff in E. exfalso. exact (Qlt_not_le _ _ H E).
Qed.

Lemma np_arange_edges :
  np_arange 0 1 (1 # 1000) = map edge (seq 0 1000).
Proof. vm_compute. reflexivity. Qed.

Lemma nth_error_edges (i : nat) :
  i < 1000 -> nth_error (map edge (seq 0 1000)) i = Some (edge i).
Proof.
  intros H. rewrite nth_error_map, nth_error_seq.
  destruct (Nat.ltb_spec i 1000); [reflexivity | lia].
Qed.

(** The counts over the edges [e i, e (i+1), ..., e (i+n)]. *)
Lemma histogram_counts_seq (e : nat -> Q) (a : list Q) :
  forall n i,
    histogram_counts a (e i) (map e (seq (S i) n))
    = map (fun k =>
             count (fun x =>
                      Qle_bool (e k) x
                      && (if k =? i + n - 1 then Qle_bool x (e (S k))
                          else Qlt_bool x (e (S k)))) a)
          (seq i n).
Proof.
  induction n as [|n IH]; intros i; [reflexivity|].
  cbn [seq map histogram_counts].
  destruct n as [|n].
  - cbn [seq map]. replace (i + 1 - 1) with i by lia.
    now rewrite Nat.eqb_refl.
  - rewrite (IH (S i)). cbn [seq map].
    replace (S i + S n - 1) with (i + S (S n) - 1) by lia.
    destruct (Nat.eqb_spec i (i + S (S n) - 1)); [lia | reflexivity].
Qed.

Lemma histogram_bins (cs1 : list Q) :
  np_histogram cs1 (np_arange 0 1 (1 # 1000))
  = (map (bin_count cs1) (seq 0 999), map edge (seq 0 1000)).
Proof.
  rewrite np_arange_edges.
  change (seq 0 1000) with (0 :: seq 1 999) at 1.
  cbn [map np_histogram].
  rewrite (histogram_counts_seq edge cs1 999 0).
  reflexivity.
Qed.

Lemma cumsum_from_seq (f : nat -> nat) (F : nat -> nat) :
  F 0 = f 0 -> (forall k, F (S k) = F k + f (S k)) ->
  forall n i,
    cumsum_from (match i with 0 => 0 | S i' => F i' end) (map f (seq i n))
    = map F (seq i n).
Proof.
  intros H0 HS. induction n as [|n IH]; intros i; [reflexivity|].
  cbn [seq map cumsum_from].
  assert (Hi : match i with 0 => 0 | S i' => F i' end + f i = F i).
  { destruct i as [|i']; [simpl; auto | now rewrite HS]. }
  rewrite Hi. f_equal. exact (IH (S i)).
Qed.

Lemma cumsum_bins (cs1 : list Q) :
  np_cumsum (map (bin_count cs1) (seq 0 999)) = map (cum_count cs1) (seq 0 999).
Proof.
  unfold np_cumsum.
  exact (cumsum_from_seq (bin_count cs1) (cum_count cs1) eq_refl
                         (fun k => eq_refl) 999 0).
Qed.

Lemma nth_error_below (t : Q) (cs1 : list Q) (k : nat) :
  nth_error (map (below t cs1) (seq 0 999)) k
  = if k <? 999 then Some (below t cs1 k) else None.
Proof.
  rewrite nth_error_map, nth_error_seq.
  now destruct (k <? 999).
Qed.

(** The loop body computes the left edge of the highest bin whose
    cumulative count is below [threshold * len(cs1)]. *)
Lemma row_cutoff_eq (t : Q) (cs1 : list Q) :
  row_cutoff t cs1
  = k <- getitem_last (np_where (map (below t cs1) (seq 0 999))) ;; Ok (edge k).
Proof.
  unfold row_cutoff. rewrite histogram_bins, cumsum_bins, map_map.
  change (map (fun x => Qlt_bool (inject_Z (Z.of_nat (cum_count cs1 x)))
                                 (t * inject_Z (Z.of_nat (length cs1)))%Q)
              (seq 0 999))
    with (map (below t cs1) (seq 0 999)).
  rewrite (getitems_map edge).
  - cbn [bind]. apply getitem_last_map.
  - intros i Hi. apply np_where_In in Hi. rewrite nth_error_below in Hi.
    apply nth_error_edges.
    destruct (Nat.ltb_spec i 999); [lia | discriminate].
Qed.










Lemma similarity_cutoff_collect (cosine : list Q -> list Q -> Q)
      (X Y : matrix) (t : Q) :
  ncols X = ncols Y ->
  similarity_cutoff cosine (Arr2 X) (Arr2 Y) t
  = collect (fun x => row_cutoff t (map (cosine x) (mrows Y))) (mrows X).
Proof.
  intros HF. unfold similarity_cutoff, cosine_similarity.
  rewrite HF, Nat.eqb_refl. cbn [bind mrows].
  rewrite for_each_append.
  set (ys := mrows Y). clearbody ys. clear HF.
  induction (mrows X) as [|x xs IH]; [reflexivity|].
  cbn [map collect].
  destruct (row_cutoff t (map (cosine x) ys)) as [c|e]; [|reflexivity].
  cbn [bind]. cbn [bind app] in IH.
  destruct (collect (row_cutoff t) (map (fun u => map (cosine u) ys) xs))
    as [cs|e];
    destruct (collect (fun x0 => row_cutoff t (map (cosine x0) ys)) xs)
    as [cs'|e']; cbn [bind app] in *; congruence.
Qed.

(** ** The loop of [similar_matches] *)

Lemma for_each_ext {A S : Type} (f f' : A -> S -> result S) (l : list A) :
  (forall x s, f x s = f' x s) ->
  forall s, for_each l f s = for_each l f' s.
Proof.
  intros H. induction l as [|x l IH]; intros s; simpl; [reflexivity|].
  rewrite H. destruct (f' x s); simpl; auto.
Qed.

Lemma collect_map {A A' B : Type} (g : A' -> result B) (f : A -> A') (l : list A) :
  collect g (map f l) = collect (fun x => g (f x)) l.
Proof.
  induction l as [|x l IH]; simpl; [reflexivity|]. now rewrite IH.
Qed.

(** Reading two sequences of equal length side by side, index by index. *)
Lemma collect_zip {A B C : Type} (f : A -> B -> C) (l1 : list A) :
  forall l2 : list B,
    length l2 = length l1 ->
    collect (fun i => a <- getitem l1 i ;; b <- getitem l2 i ;; Ok (f a b))
            (seq 0 (length l1))
    = Ok (map (fun p => f (fst p) (snd p)) (combine l1 l2)).
Proof.
  induction l1 as [|a l1 IH]; intros [|b l2] Hlen; try discriminate;
    [reflexivity|].
  injection Hlen as Hlen.
  cbn [length seq collect combine map fst snd].
  rewrite <- seq_shift, collect_map.
  change (collect (fun x => a0 <- getitem (a :: l1) (S x) ;;
                            b0 <- getitem (b :: l2) (S x) ;; Ok (f a0 b0))
                  (seq 0 (length l1)))
    with (collect (fun i => a0 <- getitem l1 i ;;
                            b0 <- getitem l2 i ;; Ok (f a0 b0))
                  (seq 0 (length l1))).
  now rewrite (IH l2 Hlen).
Qed.

Lemma nth_error_combine {A B : Type} (l1 : list A) :
  forall (l2 : list B) (i : nat) (a : A) (b : B),
    nth_error l1 i = Some a -> nth_error l2 i = Some b ->
    nth_error (combine l1 l2) i = Some (a, b).
Proof.
  induction l1 as [|x l1 IH]; intros [|y l2] [|i] a b H1 H2;
    try discriminate; simpl in *.
  - congruence.
  - now apply IH.
Qed.

(** Past the early return and the two assertions, [similar_matches]
    returns the rounded similarity matrix and one index array per row. *)
Lemma similar_matches_run (cosine : list Q -> list Q -> Q) (X Y : matrix)
      (cutoff_list : list Q) :
  mrows Y <> [] -> ncols X = ncols Y -> length cutoff_list = length (mrows X) ->
  similar_matches cosine (Arr2 X) (Arr2 Y) cutoff_list
  = Ok (map (fun p => np_where (map (fun s => Qle_bool (snd p) s) (fst p)))
            (combine (mrows (rounded_similarity cosine X Y)) cutoff_list),
        Arr2 (rounded_similarity cosine X Y)).
Proof.
  intros HY HF Hlen. unfold similar_matches, cosine_similarity.
  cbn [len shape1 bind].
  assert (Hne : (length (mrows Y) =? 0) = false).
  { destruct (mrows Y); [contradiction | reflexivity]. }
  rewrite Hne, HF, Hlen, !Nat.eqb_refl. cbn [assert bind].
  assert (Hsim : np_round3
                   (Matrix (length (mrows Y))
                           (map (fun u => map (cosine u) (mrows Y)) (mrows X)))
                 = rounded_similarity cosine X Y).
  { unfold np_round3, rounded_similarity. cbn [ncols mrows].
    f_equal. rewrite map_map. apply map_ext. intros x. now rewrite map_map. }
  rewrite Hsim.
  rewrite (for_each_ext
             (fun i match_indices =>
                row <- getitem (mrows (rounded_similarity cosine X Y)) i ;;
                cutoff <- getitem cutoff_list i ;;
                Ok (match_indices
                      ++ [np_where (map (fun s => Qle_bool cutoff s) row)]))
             (fun i match_indices =>
                m <- (row <- getitem (mrows (rounded_similarity cosine X Y)) i ;;
                      cutoff <- getitem cutoff_list i ;;
                      Ok (np_where (map (fun s => Qle_bool cutoff s) row))) ;;
                Ok (match_indices ++ [m]))).
  2:{ intros i s.
      destruct (getitem (mrows (rounded_similarity cosine X Y)) i);
        [|reflexivity].
      cbn [bind]. destruct (getitem cutoff_list i); reflexivity. }
  rewrite for_each_append.
  assert (HQ : length (mrows X)
               = length (mrows (rounded_similarity cosine X Y))).
  { unfold rounded_similarity. cbn [mrows]. now rewrite length_map. }
  rewrite HQ.
  rewrite (collect_zip (fun row cutoff =>
                          np_where (map (fun s => Qle_bool cutoff s) row)))
    by congruence.
  reflexivity.
Qed.

(** ** Statements about [similarity_cutoff] *)


(** C7 (failing input): with two queries and one background vector
    orthogonal to the second query, the first bin of the second query
    already holds the whole background, and the call raises [IndexError]
    instead of returning a list of two cutoffs. *)
Theorem similarity_cutoff_raises_on_second_query :
  similarity_cutoff dot (Arr2 (Matrix 2 [[3 # 5; 4 # 5]; [1; 0]]%Q))
                    (Arr2 (Matrix 2 [[0; 1]]%Q)) (95 # 100)%Q
  = Raise IndexError.
Proof. vm_compute. reflexivity. Qed.

(** ** Statements about [similar_matches] *)

(** C3: with an empty candidate set, [similar_matches] returns an empty
    match list and an empty similarity array for every query matrix and
    every cutoff list. *)
Theorem similar_matches_no_candidates (cosine : list Q -> list Q -> Q)
        (X : matrix) (features_cand : ndarray) (cutoff_list : list Q) :
  len features_cand = 0 ->
  similar_matches cosine (Arr2 X) features_cand cutoff_list
  = Ok ([], Arr1 []).
Proof.
  intros H. unfold similar_matches. now rewrite H.
Qed.

(** C4 (as amended): with a non-empty candidate matrix, [similar_matches]
    raises the same-columns assertion whenever the widths differ, and the
    one-cutoff-per-input assertion whenever the widths agree and the number
    of cutoffs is not the number of queries; an exception carries no
    result. *)
Theorem similar_matches_precondition_errors (cosine : list Q -> list Q -> Q)
        (X Y : matrix) (cutoff_list : list Q) :
  mrows Y <> [] ->
  (ncols X <> ncols Y ->
   similar_matches cosine (Arr2 X) (Arr2 Y) cutoff_list = Raise shape_mismatch)
  /\ (ncols X = ncols Y -> length cutoff_list <> length (mrows X) ->
      similar_matches cosine (Arr2 X) (Arr2 Y) cutoff_list
      = Raise cardinality_mismatch).
Proof.
  intros HY.
  assert (Hne : (length (mrows Y) =? 0) = false).
  { destruct (mrows Y); [contradiction | reflexivity]. }
  unfold similar_matches. cbn [len shape1 bind]. rewrite Hne. split.
  - intros HF. apply Nat.eqb_neq in HF. now rewrite HF.
  - intros HF Hlen. apply Nat.eqb_neq in Hlen.
    now rewrite HF, Nat.eqb_refl, Hlen.
Qed.

(** C6: for a query matrix with [Q] rows, a non-empty candidate matrix with
    [C] rows of the same width and [Q] cutoffs, the similarity matrix that
    [similar_matches] returns has [Q] rows and [C] columns. *)
Theorem similar_matches_shape (cosine : list Q -> list Q -> Q)
        (X Y : matrix) (cutoff_list : list Q) :
  mrows Y <> [] -> ncols X = ncols Y -> length cutoff_list = length (mrows X) ->
  exists ms cos_sim,
    similar_matches cosine (Arr2 X) (Arr2 Y) cutoff_list = Ok (ms, Arr2 cos_sim)
    /\ length (mrows cos_sim) = length (mrows X)
    /\ ncols cos_sim = length (mrows Y)
    /\ Forall (fun row => length row = length (mrows Y)) (mrows cos_sim).
Proof.
  intros HY HF Hlen. eexists. exists (rounded_similarity cosine X Y).
  split; [now apply similar_matches_run|].
  unfold rounded_similarity. cbn [mrows ncols].
  split; [apply length_map|]. split; [reflexivity|].
  apply Forall_forall. intros row Hrow.
  apply in_map_iff in Hrow as (x & <- & _). apply length_map.
Qed.

(** C9: with an empty candidate set the early return comes before every
    check: whatever the query array (one-dimensional ones included) and
    whatever the number of cutoffs, the empty result is returned and no
    exception is raised. *)
Theorem similar_matches_empty_before_checks (cosine : list Q -> list Q -> Q)
        (feat_input features_cand : ndarray) (cutoff_list : list Q) :
  len features_cand = 0 ->
  similar_matches cosine feat_input features_cand cutoff_list
  = Ok ([], Arr1 [])
  /\ forall e,
      similar_matches cosine feat_input features_cand cutoff_list <> Raise e.
Proof.
  intros H. unfold similar_matches. rewrite H. cbn [Nat.eqb].
  split; [reflexivity | discriminate].
Qed.

(** ** Concrete runs *)


Lemma similar_matches_no_candidates_witness :
  similar_matches dot (Arr2 (Matrix 2 [[1; 0]; [0; 1]]%Q)) (Arr2 (Matrix 2 []))
                  [(1 # 2)%Q; (1 # 2)%Q]
  = Ok ([], Arr1 []).
Proof.
  apply (similar_matches_no_candidates dot (Matrix 2 [[1; 0]; [0; 1]]%Q)
           (Arr2 (Matrix 2 [])) [(1 # 2)%Q; (1 # 2)%Q]).
  reflexivity.
Defined.

(** C4 (counterexample): widths 2 and 3 and no cutoff for one query.  Both
    preconditions fail, and the exception raised is the same-columns
    assertion, not the one-cutoff-per-input assertion. *)
Lemma similar_matches_width_checked_first :
  mrows (Matrix 3 [[0; 1; 0]]%Q) <> []
  /\ length (@nil Q) <> length (mrows (Matrix 2 [[1; 0]]%Q))
  /\ similar_matches dot (Arr2 (Matrix 2 [[1; 0]]%Q))
                     (Arr2 (Matrix 3 [[0; 1; 0]]%Q)) []
     = Raise shape_mismatch
  /\ similar_matches dot (Arr2 (Matrix 2 [[1; 0]]%Q))
                     (Arr2 (Matrix 3 [[0; 1; 0]]%Q)) []
     <> Raise cardinality_mismatch.
Proof.
  split; [discriminate|]. split; [discriminate|].
  split; [reflexivity | discriminate].
Qed.

Lemma similar_matches_precondition_errors_witness :
  similar_matches dot (Arr2 (Matrix 2 [[1; 0]]%Q))
                  (Arr2 (Matrix 3 [[0; 1; 0]]%Q)) [(1 # 2)%Q]
  = Raise shape_mismatch
  /\ similar_matches dot (Arr2 (Matrix 2 [[1; 0]]%Q))
                     (Arr2 (Matrix 2 [[0; 1]]%Q)) []
     = Raise cardinality_mismatch.
Proof.
  split.
  - apply (proj1 (similar_matches_precondition_errors dot
                    (Matrix 2 [[1; 0]]%Q) (Matrix 3 [[0; 1; 0]]%Q) [(1 # 2)%Q]
                    ltac:(discriminate))).
    simpl. lia.
  - apply (proj2 (similar_matches_precondition_errors dot
                    (Matrix 2 [[1; 0]]%Q) (Matrix 2 [[0; 1]]%Q) []
                    ltac:(discriminate))).
    + reflexivity.
    + simpl. lia.
Defined.


Lemma similar_matches_shape_witness :
  exists ms cos_sim,
    similar_matches dot (Arr2 (Matrix 2 [[1; 0]; [0; 1]]%Q))
                    (Arr2 (Matrix 2 [[3 # 5; 4 # 5]; [0; 1]; [4 # 5; 3 # 5]]%Q))
                    [(6 # 10)%Q; (9 # 10)%Q]
    = Ok (ms, Arr2 cos_sim)
    /\ length (mrows cos_sim) = 2
    /\ ncols cos_sim = 3
    /\ Forall (fun row => length row = 3) (mrows cos_sim).
Proof.
  apply (similar_matches_shape dot
           (Matrix 2 [[1; 0]; [0; 1]]%Q)
           (Matrix 2 [[3 # 5; 4 # 5]; [0; 1]; [4 # 5; 3 # 5]]%Q)
           [(6 # 10)%Q; (9 # 10)%Q]).
  - discriminate.
  - reflexivity.
  - reflexivity.
Defined.

Lemma similar_matches_empty_before_checks_witness :
  similar_matches dot (Arr1 [1; 2; 3]%Q) (Arr1 []) [(1 # 2)%Q; (1 # 2)%Q]
  = Ok ([], Arr1 [])
  /\ shape1 (Arr1 [1; 2; 3]%Q) = Raise IndexError
  /\ length [(1 # 2)%Q; (1 # 2)%Q] <> len (Arr1 [1; 2; 3]%Q).
Proof.
  split.
  - apply (similar_matches_empty_before_checks dot (Arr1 [1; 2; 3]%Q)
             (Arr1 []) [(1 # 2)%Q; (1 # 2)%Q]).
    reflexivity.
  - split; [reflexivity | simpl; lia].
Defined.

(** ** Further properties of [similarity_cutoff] *)


Lemma count_ext (p q : Q -> bool) (a : list Q) :
  (forall x, p x = q x) -> count p a = count q a.
Proof.
  intros H. unfold count. f_equal. apply filter_ext. exact H.
Qed.

(** Counting over two disjoint ranges. *)
Lemma count_split (p q r : Q -> bool) (a : list Q) :
  (forall x, r x = p x || q x) -> (forall x, p x && q x = false) ->
  count r a = count p a + count q a.
Proof.
  intros Hor Hdisj. unfold count.
  induction a as [|x a IH]; [reflexivity|]. simpl.
  rewrite (Hor x). specialize (Hdisj x).
  destruct (p x), (q x); simpl in *; try discriminate; lia.
Qed.

Lemma count_Permutation (p : Q -> bool) (a b : list Q) :
  Permutation a b -> count p a = count p b.
Proof.
  unfold count. induction 1 as [|x a b _ IH|x y a|a b c _ IH1 _ IH2]; simpl.
  - reflexivity.
  - destruct (p x); simpl; lia.
  - destruct (p x), (p y); reflexivity.
  - lia.
Qed.



Lemma Qle_bool_false (x y : Q) : Qle_bool x y = false <-> (y < x)%Q.
Proof.
  split.
  - intros H. apply Qnot_le_lt. intros Hle. apply Qle_bool_iff in Hle.
    congruence.
  - intros H. destruct (Qle_bool x y) eqn:E; [|reflexivity].
    apply Qle_bool_iff in E. exfalso. exact (Qlt_not_le _ _ H E).
Qed.

Lemma Qlt_bool_false (x y : Q) : Qlt_bool x y = false <-> (y <= x)%Q.
Proof.
  unfold Qlt_bool. rewrite negb_false_iff. apply Qle_bool_iff.
Qed.


Lemma collect_app {A B : Type} (g : A -> result B) (l1 l2 : list A) :
  collect g (l1 ++ l2)
  = ys1 <- collect g l1 ;; ys2 <- collect g l2 ;; Ok (ys1 ++ ys2).
Proof.
  induction l1 as [|x l1 IH]; simpl.
  - destruct (collect g l2); reflexivity.
  - destruct (g x) as [y|e]; simpl; [|reflexivity].
    rewrite IH. destruct (collect g l1) as [ys1|e]; simpl; [|reflexivity].
    destruct (collect g l2); reflexivity.
Qed.

Lemma cum_count_Permutation (a b : list Q) (k : nat) :
  Permutation a b -> cum_count a k = cum_count b k.
Proof.
  intros H. induction k as [|k IH]; cbn [cum_count]; unfold bin_count;
    [|rewrite IH]; now rewrite (count_Permutation _ a b H).
Qed.

Lemma similarity_cutoff_width (cosine : list Q -> list Q -> Q)
      (X Y : matrix) (t : Q) :
  ncols X <> ncols Y ->
  similarity_cutoff cosine (Arr2 X) (Arr2 Y) t = Raise ValueError.
Proof.
  intros H. unfold similarity_cutoff, cosine_similarity.
  apply Nat.eqb_neq in H. now rewrite H.
Qed.

(** X2: the cutoffs do not depend on the order of the background rows. *)
Theorem similarity_cutoff_background_order (cosine : list Q -> list Q -> Q)
        (X Y : matrix) (rows : list (list Q)) (threshold : Q) :
  Permutation (mrows Y) rows ->
  similarity_cutoff cosine (Arr2 X) (Arr2 (Matrix (ncols Y) rows)) threshold
  = similarity_cutoff cosine (Arr2 X) (Arr2 Y) threshold.
Proof.
  intros Hperm.
  destruct (Nat.eq_dec (ncols X) (ncols Y)) as [HF|HF].
  2:{ now rewrite !similarity_cutoff_width. }
  rewrite !similarity_cutoff_collect by exact HF. cbn [mrows].
  apply collect_ext. intros x _. rewrite !row_cutoff_eq.
  assert (Hrow : Permutation (map (cosine x) rows) (map (cosine x) (mrows Y))).
  { apply Permutation_map. now symmetry. }
  do 3 f_equal. apply map_ext. intros k. unfold below.
  now rewrite (cum_count_Permutation _ _ k Hrow), (Permutation_length Hrow).
Qed.



(** X5: the queries are treated one by one: the call on two non-empty
    query matrices stacked returns the concatenation of the cutoffs of the
    two parts, and raises what the first failing part raises. *)
Theorem similarity_cutoff_stacked (cosine : list Q -> list Q -> Q)
        (F : nat) (rows1 rows2 : list (list Q)) (Y : ndarray) (threshold : Q) :
  rows1 <> [] -> rows2 <> [] ->
  similarity_cutoff cosine (Arr2 (Matrix F (rows1 ++ rows2))) Y threshold
  = c1 <- similarity_cutoff cosine (Arr2 (Matrix F rows1)) Y threshold ;;
    c2 <- similarity_cutoff cosine (Arr2 (Matrix F rows2)) Y threshold ;;
    Ok (c1 ++ c2).
Proof.
  intros _ _. destruct Y as [ys|Y]; [reflexivity|].
  destruct (Nat.eq_dec F (ncols Y)) as [HF|HF].
  - rewrite !similarity_cutoff_collect by exact HF. apply collect_app.
  - now rewrite !similarity_cutoff_width.
Qed.

(** ** Further properties of [similar_matches] *)

Lemma similar_matches_Ok_inv (cosine : list Q -> list Q -> Q) (X Y : matrix)
      (cutoff_list : list Q) (r : list (list nat) * ndarray) :
  mrows Y <> [] ->
  similar_matches cosine (Arr2 X) (Arr2 Y) cutoff_list = Ok r ->
  ncols X = ncols Y /\ length cutoff_list = length (mrows X).
Proof.
  intros HY H.
  assert (Hne : (length (mrows Y) =? 0) = false).
  { destruct (mrows Y); [contradiction | reflexivity]. }
  unfold similar_matches in H. cbn [len shape1 bind] in H. rewrite Hne in H.
  destruct (Nat.eqb_spec (ncols X) (ncols Y)); [|discriminate].
  cbn [assert bind] in H.
  destruct (Nat.eqb_spec (length cutoff_list) (length (mrows X)));
    [auto | discriminate].
Qed.

(** Membership in the index array of one query. *)
Lemma similar_matches_member (cosine : list Q -> list Q -> Q) (X Y : matrix)
      (cutoff_list : list Q) (ms : list (list nat)) (sim : ndarray) :
  mrows Y <> [] ->
  similar_matches cosine (Arr2 X) (Arr2 Y) cutoff_list = Ok (ms, sim) ->
  forall q x cutoff m,
    nth_error (mrows X) q = Some x ->
    nth_error cutoff_list q = Some cutoff ->
    nth_error ms q = Some m ->
    forall c, In c m
              <-> exists y, nth_error (mrows Y) c = Some y
                            /\ (cutoff <= round3 (cosine x y))%Q.
Proof.
  intros HY H q x cutoff m Hx Hc Hm c.
  destruct (similar_matches_Ok_inv cosine X Y cutoff_list _ HY H) as [HF Hlen].
  rewrite (similar_matches_run cosine X Y cutoff_list HY HF Hlen) in H.
  assert (Hms : ms
                = map (fun p => np_where (map (fun s => Qle_bool (snd p) s)
                                              (fst p)))
                      (combine (mrows (rounded_similarity cosine X Y))
                               cutoff_list)) by congruence.
  rewrite Hms in Hm. clear H Hms.
  rewrite (map_nth_error
             (fun p => np_where (map (fun s => Qle_bool (snd p) s) (fst p)))
             q (combine (mrows (rounded_similarity cosine X Y)) cutoff_list)
             (d := (map (fun y => round3 (cosine x y)) (mrows Y), cutoff)))
    in Hm.
  2:{ apply nth_error_combine; [|exact Hc].
      unfold rounded_similarity. cbn [mrows].
      now apply (map_nth_error
                   (fun x0 => map (fun y => round3 (cosine x0 y)) (mrows Y))). }
  injection Hm as <-. cbn [fst snd].
  rewrite np_where_In, !nth_error_map.
  destruct (nth_error (mrows Y) c) as [y|]; cbn [option_map].
  - split.
    + intros E. injection E as E. exists y.
      split; [reflexivity | now apply Qle_bool_iff].
    + intros (y' & Hy & Hle). injection Hy as <-.
      f_equal. now apply Qle_bool_iff.
  - split; [discriminate | intros (y & Hy & _); discriminate].
Qed.

(** X8: lowering cutoffs loses no match: with cutoffs that are pointwise
    smaller, every index array contains the one it had before. *)
Theorem similar_matches_antitone (cosine : list Q -> list Q -> Q)
        (X Y : matrix) (cutoffs cutoffs' : list Q)
        (ms ms' : list (list nat)) (sim sim' : ndarray) :
  Forall2 Qle cutoffs' cutoffs ->
  similar_matches cosine (Arr2 X) (Arr2 Y) cutoffs = Ok (ms, sim) ->
  similar_matches cosine (Arr2 X) (Arr2 Y) cutoffs' = Ok (ms', sim') ->
  sim' = sim /\ Forall2 (fun m m' => incl m m') ms ms'.
Proof.
  intros Hle H H'.
  destruct (mrows Y) as [|y0 ys0] eqn:EY.
  { unfold similar_matches in H, H'. cbn [len] in H, H'. rewrite EY in H, H'.
    cbn [length Nat.eqb] in H, H'.
    injection H as <- <-. injection H' as <- <-. split; constructor. }
  assert (HY : mrows Y <> []) by (rewrite EY; discriminate).
  destruct (similar_matches_Ok_inv cosine X Y cutoffs _ HY H) as [HF Hlen].
  destruct (similar_matches_Ok_inv cosine X Y cutoffs' _ HY H') as [_ Hlen'].
  rewrite (similar_matches_run cosine X Y cutoffs HY HF Hlen) in H.
  rewrite (similar_matches_run cosine X Y cutoffs' HY HF Hlen') in H'.
  remember (rounded_similarity cosine X Y) as R eqn:ER.
  injection H as <- <-. injection H' as <- <-. split; [reflexivity|].
  clear Hlen Hlen' ER.
  generalize (mrows R) as rows.
  induction Hle as [|c' c cs' cs Hc _ IH]; intros rows.
  { destruct rows; constructor. }
  destruct rows as [|row rows]; cbn [combine map]; [constructor|].
  constructor; [|apply IH].
  cbn [fst snd]. intros i Hi. apply np_where_In. apply np_where_In in Hi.
  rewrite nth_error_map in *.
  destruct (nth_error row i) as [s|]; [|discriminate].
  cbn [option_map] in *. injection Hi as Hi. f_equal.
  apply Qle_bool_iff. apply Qle_bool_iff in Hi. lra.
Qed.

(** X9: with candidates present, a one-dimensional query or candidate
    array (such as the [np.array([])] of an empty image list) has no
    second shape entry and the call raises [IndexError]. *)
Theorem similar_matches_one_dimensional (cosine : list Q -> list Q -> Q)
        (feat_input features_cand : ndarray) (cutoff_list : list Q) :
  len features_cand <> 0 ->
  (exists xs, feat_input = Arr1 xs) \/ (exists ys, features_cand = Arr1 ys) ->
  similar_matches cosine feat_input features_cand cutoff_list
  = Raise IndexError.
Proof.
  intros Hlen H. apply Nat.eqb_neq in Hlen. unfold similar_matches.
  rewrite Hlen. destruct H as [[xs ->]|[ys ->]]; [reflexivity|].
  destruct feat_input; reflexivity.
Qed.

(** ** [draw_matches] *)

Lemma append_at_last {A : Type} (acc : list (list A)) (cur : list A) (b : A) :
  append_at (acc ++ [cur]) (length acc) b = Ok (acc ++ [cur ++ [b]]).
Proof.
  induction acc as [|r acc IH]; simpl; [reflexivity|]. now rewrite IH.
Qed.

(** The inner loop fills the last list with the boxes of one query. *)
Lemma box_loop {A : Type} (prediction : list A) (acc : list (list A))
      (indices : list nat) :
  forall cur,
    for_each indices
      (fun match_ l => box <- getitem prediction match_ ;;
                       append_at l (length acc) box)
      (acc ++ [cur])
    = bs <- collect (getitem prediction) indices ;; Ok (acc ++ [cur ++ bs]).
Proof.
  induction indices as [|c indices IH]; intros cur; simpl.
  - now rewrite app_nil_r.
  - destruct (getitem prediction c) as [b|e]; simpl; [|reflexivity].
    rewrite append_at_last. simpl. rewrite IH.
    destruct (collect (getitem prediction) indices); simpl; [|reflexivity].
    now rewrite <- app_assoc.
Qed.

(** The outer loop collects the boxes of every query in turn. *)
Lemma query_loop {A : Type} (prediction : list A) (matches : list (list nat))
      (n : nat) :
  forall start acc,
    length acc = start ->
    for_each (seq start n)
      (fun i l =>
         let l := l ++ [[]] in
         indices <- getitem matches i ;;
         for_each indices
           (fun match_ l => box <- getitem prediction match_ ;;
                            append_at l i box)
           l)
      acc
    = boxes <- collect (boxes_of prediction matches) (seq start n) ;;
      Ok (acc ++ boxes).
Proof.
  induction n as [|n IH]; intros start acc Hacc; subst start; simpl.
  - now rewrite app_nil_r.
  - change (boxes_of prediction matches (length acc))
      with (indices <- getitem matches (length acc) ;;
            collect (getitem prediction) indices).
    destruct (getitem matches (length acc)) as [indices|e]; simpl;
      [|reflexivity].
    rewrite box_loop.
    destruct (collect (getitem prediction) indices) as [bs|e]; simpl;
      [|reflexivity].
    pose proof (IH (S (length acc)) (acc ++ [bs])) as IH'. cbv zeta in IH'.
    rewrite IH' by (rewrite length_app; simpl; lia).
    destruct (collect (boxes_of prediction matches) (seq (S (length acc)) n));
      simpl; [|reflexivity].
    now rewrite <- app_assoc.
Qed.

Lemma collect_defined {A B : Type} (g : A -> result B) (l : list A) :
  (forall x, In x l -> exists y, g x = Ok y) -> exists ys, collect g l = Ok ys.
Proof.
  induction l as [|x l IH]; intros H; simpl; [now exists []|].
  destruct (H x (or_introl eq_refl)) as [y Hy].
  destruct IH as [ys Hys]; [intros z Hz; apply H; now right|].
  exists (y :: ys). now rewrite Hy, Hys.
Qed.

Lemma collect_only_raises {A B : Type} (g : A -> result B) (e : exn)
      (l : list A) :
  (forall x e', g x = Raise e' -> e' = e) ->
  forall e', collect g l = Raise e' -> e' = e.
Proof.
  intros Hg. induction l as [|x l IH]; simpl; intros e' H; [discriminate|].
  destruct (g x) as [y|e0] eqn:E; simpl in H.
  - destruct (collect g l) as [ys|e1]; simpl in H; [discriminate|].
    injection H as <-. now apply IH.
  - injection H as <-. now apply (Hg x).
Qed.

Lemma Forall2_nth_error {A B : Type} (R : A -> B -> Prop) (l : list A)
      (l' : list B) :
  Forall2 R l l' ->
  forall i a, nth_error l i = Some a ->
              exists b, nth_error l' i = Some b /\ R a b.
Proof.
  induction 1 as [|x y l l' Hxy _ IH]; intros [|i] a Ha; try discriminate.
  - injection Ha as <-. now exists y.
  - now apply IH.
Qed.

Lemma getitem_Raise {A : Type} (l : list A) (i : nat) (e : exn) :
  getitem l i = Raise e -> e = IndexError.
Proof.
  unfold getitem. destruct (nth_error l i); [discriminate|].
  now intros H; injection H as <-.
Qed.

Lemma boxes_of_Raise {A : Type} (prediction : list A)
      (matches : list (list nat)) (i : nat) (e : exn) :
  boxes_of prediction matches i = Raise e -> e = IndexError.
Proof.
  unfold boxes_of. destruct (getitem matches i) as [m|e0] eqn:E; simpl.
  - apply collect_only_raises. intros c e'. apply getitem_Raise.
  - intros H. injection H as <-. now apply getitem_Raise in E.
Qed.

(** [draw_matches] past its early return: the palette, the boxes of every
    query, then the drawing routine. *)
Lemma draw_matches_eq
      (bbox label image_array pil_image : Type)
      (Image_fromarray : image_array -> pil_image)
      (array_of_image : pil_image -> image_array)
      (bbox_colors : nat -> color_array)
      (draw_annotated_box :
         pil_image -> list (list bbox) -> list label -> list (list Z)
         -> pil_image)
      (img_test : image_array) (inputs : list label)
      (prediction : list bbox) (matches : list (list nat)) :
  prediction <> [] ->
  draw_matches Image_fromarray array_of_image bbox_colors
                draw_annotated_box img_test inputs prediction matches
  = colors <- reverse_channels (bbox_colors (length inputs)) ;;
    boxes <- collect (boxes_of prediction matches) (seq 0 (length inputs)) ;;
    Ok (array_of_image
          (draw_annotated_box (Image_fromarray img_test) boxes inputs colors)).
Proof.
  intros Hp. unfold draw_matches.
  destruct prediction as [|b prediction]; [contradiction|].
  cbn [length Nat.eqb].
  destruct (reverse_channels (bbox_colors (length inputs))) as [colors|e];
    [|reflexivity].
  cbn [bind]. rewrite (query_loop (b :: prediction) matches _ 0 [] eq_refl).
  destruct (collect (boxes_of (b :: prediction) matches)
                    (seq 0 (length inputs))); reflexivity.
Qed.

(** The boxes of the queries, when every index array is present and every
    index is in range. *)
Lemma boxes_collected {bbox : Type} (n : nat) (prediction : list bbox)
      (matches : list (list nat)) :
  n <= length matches ->
  (forall i m c, i < n -> nth_error matches i = Some m -> In c m ->
                 c < length prediction) ->
  exists boxes,
    collect (boxes_of prediction matches) (seq 0 n) = Ok boxes
    /\ length boxes = n
    /\ forall i m, i < n -> nth_error matches i = Some m ->
                   exists bs, nth_error boxes i = Some bs
                              /\ Forall2 (fun c b => nth_error prediction c = Some b)
                                         m bs.
Proof.
  intros Hn Hrange.
  destruct (collect_defined (boxes_of prediction matches) (seq 0 n))
    as [boxes Hboxes].
  { intros i Hi. apply in_seq in Hi. unfold boxes_of, getitem at 1.
    destruct (nth_error matches i) as [m|] eqn:Em.
    - cbn [bind]. apply collect_defined. intros c Hc. unfold getitem.
      destruct (nth_error prediction c) as [b|] eqn:Ec; [now exists b|].
      apply nth_error_None in Ec.
      pose proof (Hrange i m c ltac:(lia) Em Hc). lia.
    - apply nth_error_None in Em. lia. }
  exists boxes. split; [exact Hboxes|].
  apply collect_Ok_Forall2 in Hboxes.
  split.
  - rewrite <- (Forall2_length Hboxes). apply length_seq.
  - intros i m Hi Hm.
    destruct (Forall2_nth_error _ _ _ Hboxes i i) as (bs & Hbs & Hrun).
    { rewrite nth_error_seq. destruct (Nat.ltb_spec i n); [reflexivity | lia]. }
    exists bs. split; [exact Hbs|].
    unfold boxes_of, getitem at 1 in Hrun. rewrite Hm in Hrun. cbn [bind] in Hrun.
    apply collect_Ok_Forall2 in Hrun.
    eapply Forall2_impl; [|exact Hrun]. cbv beta.
    intros c b Hcb. unfold getitem in Hcb.
    destruct (nth_error prediction c); [congruence | discriminate].
Qed.

(** X11: with predictions present, a two-dimensional palette, an index
    array for every input and every index in range, [draw_matches] hands
    the drawing routine one box list per input, holding the predictions
    at that input's indices in order, and the palette with its channels
    reversed. *)
Theorem draw_matches_boxes
      (bbox label image_array pil_image : Type)
      (Image_fromarray : image_array -> pil_image)
      (array_of_image : pil_image -> image_array)
      (bbox_colors : nat -> color_array)
      (draw_annotated_box :
         pil_image -> list (list bbox) -> list label -> list (list Z)
         -> pil_image)
      (img_test : image_array) (inputs : list label)
        (prediction : list bbox) (matches : list (list nat))
        (palette : list (list Z)) :
  prediction <> [] ->
  bbox_colors (length inputs) = Colors2 palette ->
  length inputs <= length matches ->
  (forall i m c, i < length inputs -> nth_error matches i = Some m ->
                 In c m -> c < length prediction) ->
  exists boxes,
    draw_matches Image_fromarray array_of_image bbox_colors
                draw_annotated_box img_test inputs prediction matches
    = Ok (array_of_image
            (draw_annotated_box (Image_fromarray img_test) boxes inputs
                                (map (@rev Z) palette)))
    /\ length boxes = length inputs
    /\ forall i m, i < length inputs -> nth_error matches i = Some m ->
                   exists bs, nth_error boxes i = Some bs
                              /\ Forall2 (fun c b => nth_error prediction c = Some b)
                                         m bs.
Proof.
  intros Hp Hcol Hlen Hrange.
  destruct (boxes_collected (length inputs) prediction matches Hlen Hrange)
    as (boxes & Hboxes & Hl & Hall).
  exists boxes. split; [|split; assumption].
  rewrite draw_matches_eq by exact Hp. rewrite Hcol. cbn [reverse_channels bind].
  now rewrite Hboxes.
Qed.

(** X12: with predictions present, [draw_matches] raises [IndexError]
    when the palette is one-dimensional, when an input has no index
    array, or when an index of an input's array is past the predictions. *)
Theorem draw_matches_index_error
      (bbox label image_array pil_image : Type)
      (Image_fromarray : image_array -> pil_image)
      (array_of_image : pil_image -> image_array)
      (bbox_colors : nat -> color_array)
      (draw_annotated_box :
         pil_image -> list (list bbox) -> list label -> list (list Z)
         -> pil_image)
      (img_test : image_array)
        (inputs : list label) (prediction : list bbox)
        (matches : list (list nat)) :
  prediction <> [] ->
  (exists c, bbox_colors (length inputs) = Colors1 c)
  \/ length matches < length inputs
  \/ (exists i m c, i < length inputs /\ nth_error matches i = Some m
                    /\ In c m /\ length prediction <= c) ->
  draw_matches Image_fromarray array_of_image bbox_colors
               draw_annotated_box img_test inputs prediction matches
  = Raise IndexError.
Proof.
  intros Hp Hcause. rewrite draw_matches_eq by exact Hp.
  destruct (bbox_colors (length inputs)) as [c|palette] eqn:Ecol;
    [reflexivity|].
  cbn [reverse_channels bind].
  assert (Hraise : collect (boxes_of prediction matches)
                           (seq 0 (length inputs)) = Raise IndexError).
  { apply collect_raises.
    - apply Forall_forall. intros i _ e. apply boxes_of_Raise.
    - apply Exists_exists.
      destruct Hcause as [[c Hc]|[Hshort|(i & m & c & Hi & Hm & Hc & Hout)]];
        [discriminate| |].
      + exists (length matches). split; [apply in_seq; lia|].
        unfold boxes_of, getitem at 1.
        now rewrite (proj2 (nth_error_None matches (length matches))
                           (Nat.le_refl _)).
      + exists i. split; [apply in_seq; lia|].
        unfold boxes_of, getitem at 1. rewrite Hm. cbn [bind].
        apply collect_raises.
        * apply Forall_forall. intros c' _ e. apply getitem_Raise.
        * apply Exists_exists. exists c. split; [exact Hc|].
          unfold getitem.
          now rewrite (proj2 (nth_error_None prediction c) Hout). }
  now rewrite Hraise.
Qed.

(** X13: the result of [similar_matches] can be drawn: with one prediction
    per candidate row and one input label per query row, [draw_matches]
    returns the image untouched when there are no candidates, and
    otherwise draws, for every query, the predictions at that query's
    matching indices. *)
Theorem draw_matches_after_similar_matches
      (bbox label image_array pil_image : Type)
      (Image_fromarray : image_array -> pil_image)
      (array_of_image : pil_image -> image_array)
      (bbox_colors : nat -> color_array)
      (draw_annotated_box :
         pil_image -> list (list bbox) -> list label -> list (list Z)
         -> pil_image)
        (cosine : list Q -> list Q -> Q) (X Y : matrix) (cutoff_list : list Q)
        (ms : list (list nat)) (sim : ndarray)
        (img_test : image_array) (inputs : list label)
        (prediction : list bbox) (palette : list (list Z)) :
  similar_matches cosine (Arr2 X) (Arr2 Y) cutoff_list = Ok (ms, sim) ->
  length prediction = length (mrows Y) ->
  length inputs = length (mrows X) ->
  bbox_colors (length inputs) = Colors2 palette ->
  (mrows Y = [] ->
   draw_matches Image_fromarray array_of_image bbox_colors
                draw_annotated_box img_test inputs prediction ms
   = Ok img_test)
  /\ (mrows Y <> [] ->
      exists boxes,
        draw_matches Image_fromarray array_of_image bbox_colors
                draw_annotated_box img_test inputs prediction ms
        = Ok (array_of_image
                (draw_annotated_box (Image_fromarray img_test) boxes inputs
                                    (map (@rev Z) palette)))
        /\ forall q m, nth_error ms q = Some m ->
                       exists bs, nth_error boxes q = Some bs
                                  /\ Forall2 (fun c b =>
                                                nth_error prediction c = Some b)
                                             m bs).
Proof.
  intros H Hpred Hin Hcol. split.
  - intros HY. unfold draw_matches. now rewrite Hpred, HY.
  - intros HY.
    destruct (similar_matches_Ok_inv cosine X Y cutoff_list _ HY H)
      as [HF Hlen].
    assert (Hms : length ms = length (mrows X)).
    { rewrite (similar_matches_run cosine X Y cutoff_list HY HF Hlen) in H.
      assert (E : ms = map (fun p => np_where (map (fun s => Qle_bool (snd p) s)
                                                   (fst p)))
                           (combine (mrows (rounded_similarity cosine X Y))
                                    cutoff_list)) by congruence.
      rewrite E, length_map, length_combine. unfold rounded_similarity.
      cbn [mrows]. rewrite length_map. lia. }
    assert (Hp : prediction <> []).
    { intros ->. destruct (mrows Y); [contradiction | discriminate]. }
    destruct (boxes_collected (length inputs) prediction ms) as
      (boxes & Hboxes & _ & Hall); [lia| |].
    + intros q m c Hq Hm Hc.
      destruct (nth_error (mrows X) q) as [x|] eqn:Ex;
        [|apply nth_error_None in Ex; lia].
      destruct (nth_error cutoff_list q) as [cutoff|] eqn:Ec;
        [|apply nth_error_None in Ec; lia].
      destruct (proj1 (similar_matches_member cosine X Y cutoff_list ms sim
                         HY H q x cutoff m Ex Ec Hm c) Hc) as (y & Hy & _).
      rewrite Hpred. apply nth_error_Some. congruence.
    + exists boxes. split.
      * rewrite draw_matches_eq by exact Hp. rewrite Hcol.
        cbn [reverse_channels bind]. now rewrite Hboxes.
      * intros q m Hm. apply Hall; [|exact Hm].
        rewrite Hin, <- Hms. apply nth_error_Some. congruence.
Qed.

(** ** [features_from_image] *)

Lemma steps_for_exceeds (n batch_size : nat) :
  batch_size <> 0 -> n < steps_for n batch_size * batch_size.
Proof.
  intros Hb. unfold steps_for.
  pose proof (Nat.div_mod_eq n batch_size) as Hdiv.
  pose proof (Nat.mod_upper_bound n batch_size Hb) as Hmod.
  nia.
Qed.

(** X14: for a positive batch size the number of steps asks the generator
    for more items than there are images, by at most one batch, and by a
    whole batch when the batch size divides the number of images. *)
Theorem steps_for_covers (n batch_size : nat) :
  batch_size <> 0 ->
  n < steps_for n batch_size * batch_size <= n + batch_size
  /\ (n mod batch_size = 0 -> steps_for n batch_size * batch_size = n + batch_size).
Proof.
  intros Hb. unfold steps_for.
  pose proof (Nat.div_mod_eq n batch_size) as Hdiv.
  pose proof (Nat.mod_upper_bound n batch_size Hb) as Hmod.
  nia.
Qed.

(** X15: when the model returns at least one feature map per item the
    generator was asked for, [features_from_image] returns a matrix with
    exactly one row per image: the first [len(img_array)] feature maps,
    each flattened to the product of the feature dimensions. *)
Theorem features_from_image_rows
      (image generator model preprocess : Type)
      (chunks : list image -> nat -> preprocess -> generator)
      (predict_generator : model -> generator -> nat -> tensor)
      (img_array : list image) (m : model)
        (preprocess_ : preprocess) (batch_size : nat) (features : tensor) :
  img_array <> [] -> batch_size <> 0 ->
  predict_generator m (chunks img_array batch_size preprocess_)
                    (steps_for (length img_array) batch_size)
  = features ->
  steps_for (length img_array) batch_size * batch_size
  <= length (titems features) ->
  exists rows,
    features_from_image chunks predict_generator img_array m preprocess_
                        batch_size
    = Returned (Arr2 (Matrix (tdim features
                              * fold_right Nat.mul 1 (tdims features)) rows))
    /\ rows = firstn (length img_array) (titems features)
    /\ length rows = length img_array.
Proof.
  intros Himg Hb Hfeatures Hfull.
  exists (firstn (length img_array) (titems features)).
  split; [|split; [reflexivity|]].
  - unfold features_from_image. rewrite Hfeatures.
    destruct img_array as [|i imgs]; [contradiction|].
    destruct batch_size as [|b]; [contradiction|]. reflexivity.
  - rewrite length_firstn.
    pose proof (steps_for_exceeds (length img_array) batch_size Hb). lia.
Qed.

(** X16: an empty image list gives [np.array([])] for every batch size,
    zero included; as a candidate set it makes [similar_matches] return
    its empty result, and as a query set against candidates it makes
    [similar_matches] raise [IndexError]. *)
Theorem features_from_image_no_images
        (image generator model preprocess : Type)
        (chunks : list image -> nat -> preprocess -> generator)
        (predict_generator : model -> generator -> nat -> tensor)
        (cosine : list Q -> list Q -> Q)
        (m : model) (preprocess_ : preprocess) (batch_size : nat) :
  exists a,
    features_from_image chunks predict_generator [] m preprocess_ batch_size
    = Returned a
    /\ (forall feat_input cutoff_list,
           similar_matches cosine feat_input a cutoff_list = Ok ([], Arr1 []))
    /\ (forall features_cand cutoff_list,
           len features_cand <> 0 ->
           similar_matches cosine a features_cand cutoff_list
           = Raise IndexError).
Proof.
  exists (Arr1 []). split; [reflexivity|]. split; [reflexivity|].
  intros features_cand cutoff_list Hlen. apply Nat.eqb_neq in Hlen.
  unfold similar_matches. now rewrite Hlen.
Qed.

(** ** Concrete runs of the further properties *)

Lemma similarity_cutoff_background_order_witness :
  similarity_cutoff dot (Arr2 example_query)
                    (Arr2 (Matrix (ncols example_rows)
                                  (rev (mrows example_rows)))) (1 # 2)%Q
  = similarity_cutoff dot (Arr2 example_query) (Arr2 example_rows) (1 # 2)%Q.
Proof.
  apply (similarity_cutoff_background_order dot example_query example_rows
           (rev (mrows example_rows)) (1 # 2)%Q).
  apply Permutation_rev.
Defined.



Lemma similarity_cutoff_stacked_witness :
  similarity_cutoff dot (Arr2 (Matrix 2 ([[1; 0]] ++ [[3 # 5; 4 # 5]])%Q))
                    (Arr2 example_rows) (1 # 2)%Q
  = c1 <- similarity_cutoff dot (Arr2 (Matrix 2 [[1; 0]]%Q))
                            (Arr2 example_rows) (1 # 2)%Q ;;
    c2 <- similarity_cutoff dot (Arr2 (Matrix 2 [[3 # 5; 4 # 5]]%Q))
                            (Arr2 example_rows) (1 # 2)%Q ;;
    Ok (c1 ++ c2).
Proof.
  apply (similarity_cutoff_stacked dot 2 [[1; 0]]%Q [[3 # 5; 4 # 5]]%Q
           (Arr2 example_rows) (1 # 2)%Q).
  - discriminate.
  - discriminate.
Defined.

Lemma similar_matches_antitone_witness :
  Arr2 (Matrix 3 [[600 # 1000; 0 # 1000; 800 # 1000]]%Q)
  = Arr2 (Matrix 3 [[600 # 1000; 0 # 1000; 800 # 1000]]%Q)
  /\ Forall2 (fun m m' => incl m m') [[0; 2]] [[0; 1; 2]].
Proof.
  apply (similar_matches_antitone dot example_query example_rows
           [(6 # 10)%Q] [0%Q]).
  - constructor; [vm_compute; discriminate | constructor].
  - reflexivity.
  - reflexivity.
Defined.

Lemma similar_matches_one_dimensional_witness :
  similar_matches dot (Arr1 []) (Arr2 example_rows) [] = Raise IndexError.
Proof.
  apply (similar_matches_one_dimensional dot (Arr1 []) (Arr2 example_rows) []).
  - discriminate.
  - left. exists []. reflexivity.
Defined.

Lemma draw_matches_boxes_witness :
  exists boxes,
    draw_matches (fun i : nat => i) (fun i : nat => i) example_colors
                 example_draw 7 [40] [10; 11; 12] [[0; 2]]
    = Ok (example_draw 7 boxes [40] (map (@rev Z) (repeat [255; 0; 0]%Z 1)))
    /\ length boxes = 1
    /\ forall i m, i < 1 -> nth_error [[0; 2]] i = Some m ->
                   exists bs, nth_error boxes i = Some bs
                              /\ Forall2 (fun c b =>
                                            nth_error [10; 11; 12] c = Some b)
                                         m bs.
Proof.
  apply (draw_matches_boxes nat nat nat nat (fun i => i) (fun i => i)
           example_colors example_draw 7 [40] [10; 11; 12] [[0; 2]]
           (repeat [255; 0; 0]%Z 1)).
  - discriminate.
  - reflexivity.
  - simpl. lia.
  - intros i m c Hi Hm Hc. destruct i as [|i]; [|simpl in Hi; lia].
    injection Hm as <-. simpl in Hc. simpl. lia.
Defined.

Lemma draw_matches_index_error_witness :
  draw_matches (fun i : nat => i) (fun i : nat => i) example_colors
               example_draw 7 [40] [10; 11; 12] []
  = Raise IndexError.
Proof.
  apply (draw_matches_index_error nat nat nat nat (fun i => i) (fun i => i)
           example_colors example_draw 7 [40] [10; 11; 12] []).
  - discriminate.
  - right. left. simpl. lia.
Defined.

Lemma draw_matches_after_similar_matches_witness :
  exists boxes,
    draw_matches (fun i : nat => i) (fun i : nat => i) example_colors
                 example_draw 7 [40] [10; 11; 12] [[0; 2]]
    = Ok (example_draw 7 boxes [40] (map (@rev Z) (repeat [255; 0; 0]%Z 1)))
    /\ forall q m, nth_error [[0; 2]] q = Some m ->
                   exists bs, nth_error boxes q = Some bs
                              /\ Forall2 (fun c b =>
                                            nth_error [10; 11; 12] c = Some b)
                                         m bs.
Proof.
  apply (proj2 (draw_matches_after_similar_matches nat nat nat nat
                  (fun i => i) (fun i => i) example_colors example_draw
                  dot example_query example_rows [(6 # 10)%Q] [[0; 2]]
                  (Arr2 (Matrix 3 [[600 # 1000; 0 # 1000; 800 # 1000]]%Q))
                  7 [40] [10; 11; 12] (repeat [255; 0; 0]%Z 1)
                  eq_refl eq_refl eq_refl eq_refl)).
  discriminate.
Defined.

Lemma steps_for_covers_witness :
  6 < steps_for 6 3 * 3 <= 6 + 3
  /\ (6 mod 3 = 0 -> steps_for 6 3 * 3 = 6 + 3).
Proof.
  apply (steps_for_covers 6 3). discriminate.
Defined.

Lemma features_from_image_rows_witness :
  exists rows,
    features_from_image (fun (imgs : list nat) (b : nat) (_ : unit) => imgs)
                        example_predict [5; 6; 7] tt tt 2
    = Returned (Arr2 (Matrix (2 * 1) rows))
    /\ rows = firstn 3 (repeat [0; 1]%Q 4)
    /\ length rows = 3.
Proof.
  apply (features_from_image_rows nat (list nat) unit unit
           (fun imgs b _ => imgs) example_predict [5; 6; 7] tt tt 2
           (Tensor 2 [] (repeat [0; 1]%Q 4))).
  - discriminate.
  - discriminate.
  - reflexivity.
  - simpl. lia.
Defined.

(** ** The histogram of [Binary64.similarity_cutoff] *)

Lemma increasingb_nth (l : list Q) :
  increasingb l = true ->
  forall j k x y, j < k -> nth_error l j = Some x -> nth_error l k = Some y ->
                  (x < y)%Q.
Proof.
  induction l as [|a l IH]; intros H j k x y Hjk Hx Hy.
  - destruct j; discriminate.
  - destruct l as [|b l'].
    + destruct k as [|[|k]]; [lia | discriminate ..].
    + cbn [increasingb] in H. apply andb_true_iff in H as [Hab Hrest].
      apply Qlt_bool_iff in Hab.
      destruct j as [|j], k as [|k]; try lia; cbn [nth_error] in Hx, Hy.
      * injection Hx as <-. destruct k as [|k].
        -- cbn [nth_error] in Hy. now injection Hy as <-.
        -- apply Qlt_trans with b; [exact Hab|].
           apply (IH Hrest 0 (S k) b y); [lia | reflexivity | exact Hy].
      * apply (IH Hrest j k x y); [lia | exact Hx | exact Hy].
Qed.

Lemma b64_np_arange_edges :
  Binary64.np_arange 0 1 (Binary64.fl (1 # 1000))
  = map Binary64.edge (seq 0 1000).
Proof. vm_compute. reflexivity. Qed.

Lemma b64_edges_increasing :
  increasingb (map Binary64.edge (seq 0 1000)) = true.
Proof. vm_compute. reflexivity. Qed.

Lemma b64_nth_error_edges (i : nat) :
  i < 1000 ->
  nth_error (map Binary64.edge (seq 0 1000)) i = Some (Binary64.edge i).
Proof.
  intros H. rewrite nth_error_map, nth_error_seq.
  destruct (Nat.ltb_spec i 1000); [reflexivity | lia].
Qed.

(** The float64 edges increase strictly. *)
Lemma b64_edge_lt (j k : nat) :
  j < k -> k < 1000 -> (Binary64.edge j < Binary64.edge k)%Q.
Proof.
  intros Hjk Hk.
  apply (increasingb_nth _ b64_edges_increasing j k); [exact Hjk | |];
    apply b64_nth_error_edges; lia.
Qed.

Lemma b64_edge_le (j k : nat) :
  j <= k -> k < 1000 -> (Binary64.edge j <= Binary64.edge k)%Q.
Proof.
  intros Hjk Hk. destruct (Nat.eq_dec j k) as [->|Hne]; [apply Qle_refl|].
  apply Qlt_le_weak, b64_edge_lt; lia.
Qed.

Lemma b64_histogram_bins (cs1 : list Q) :
  np_histogram cs1 (Binary64.np_arange 0 1 (Binary64.fl (1 # 1000)))
  = (map (Binary64.bin_count cs1) (seq 0 999),
     map Binary64.edge (seq 0 1000)).
Proof.
  rewrite b64_np_arange_edges.
  change (seq 0 1000) with (0 :: seq 1 999) at 1.
  cbn [map np_histogram].
  rewrite (histogram_counts_seq Binary64.edge cs1 999 0).
  reflexivity.
Qed.

Lemma b64_cumsum_bins (cs1 : list Q) :
  np_cumsum (map (Binary64.bin_count cs1) (seq 0 999))
  = map (Binary64.cum_count cs1) (seq 0 999).
Proof.
  unfold np_cumsum.
  exact (cumsum_from_seq (Binary64.bin_count cs1) (Binary64.cum_count cs1)
                         eq_refl (fun k => eq_refl) 999 0).
Qed.

Lemma b64_nth_error_below (t : Q) (cs1 : list Q) (k : nat) :
  nth_error (map (Binary64.below t cs1) (seq 0 999)) k
  = if k <? 999 then Some (Binary64.below t cs1 k) else None.
Proof.
  rewrite nth_error_map, nth_error_seq.
  now destruct (k <? 999).
Qed.

(** The loop body computes the left edge of the highest bin whose
    cumulative count is below the rounded product. *)
Lemma b64_row_cutoff_eq (t : Q) (cs1 : list Q) :
  Binary64.row_cutoff t cs1
  = k <- getitem_last (np_where (map (Binary64.below t cs1) (seq 0 999))) ;;
    Ok (Binary64.edge k).
Proof.
  unfold Binary64.row_cutoff.
  rewrite b64_histogram_bins, b64_cumsum_bins, map_map.
  change (map (fun x =>
                 Qlt_bool (inject_Z (Z.of_nat (Binary64.cum_count cs1 x)))
                          (Binary64.fl
                             (t * inject_Z (Z.of_nat (length cs1)))))
              (seq 0 999))
    with (map (Binary64.below t cs1) (seq 0 999)).
  rewrite (getitems_map Binary64.edge).
  - cbn [bind]. apply getitem_last_map.
  - intros i Hi. apply np_where_In in Hi. rewrite b64_nth_error_below in Hi.
    apply b64_nth_error_edges.
    destruct (Nat.ltb_spec i 999); [lia | discriminate].
Qed.

Lemma b64_cum_count_mono (cs1 : list Q) (j k : nat) :
  j <= k -> Binary64.cum_count cs1 j <= Binary64.cum_count cs1 k.
Proof.
  induction 1 as [|k _ IH]; [lia|]. simpl. lia.
Qed.

Lemma b64_below_iff (t : Q) (cs1 : list Q) (k : nat) :
  Binary64.below t cs1 k = true <-> Binary64.bin_below t cs1 k.
Proof. apply Qlt_bool_iff. Qed.

(** A bin below the bound keeps every lower bin below it. *)
Lemma b64_below_downward (t : Q) (cs1 : list Q) (j k : nat) :
  j <= k -> Binary64.below t cs1 k = true -> Binary64.below t cs1 j = true.
Proof.
  intros Hle. rewrite !b64_below_iff. unfold Binary64.bin_below.
  apply Qle_lt_trans.
  rewrite <- Zle_Qle. pose proof (b64_cum_count_mono cs1 j k Hle). lia.
Qed.

Lemma b64_row_cutoff_Ok (t : Q) (cs1 : list Q) (c : Q) :
  Binary64.row_cutoff t cs1 = Ok c <-> Binary64.is_cutoff t cs1 c.
Proof.
  rewrite b64_row_cutoff_eq. unfold Binary64.is_cutoff. split.
  - intros H. apply bind_Ok_inv in H as (k & Hk & Hc).
    injection Hc as <-. apply last_where_Ok in Hk as [Hk Hmax].
    rewrite b64_nth_error_below in Hk.
    destruct (Nat.ltb_spec k 999) as [Hlt|]; [|discriminate].
    injection Hk as Hk. exists k. split; [exact Hlt|]. split; [reflexivity|].
    split; [now apply b64_below_iff|].
    intros j [Hkj Hj] Hb. apply b64_below_iff in Hb.
    apply (Hmax j Hkj). rewrite b64_nth_error_below.
    destruct (Nat.ltb_spec j 999); [now rewrite Hb | lia].
  - intros (k & Hlt & -> & Hk & Hmax). apply b64_below_iff in Hk.
    assert (H : getitem_last
                  (np_where (map (Binary64.below t cs1) (seq 0 999))) = Ok k).
    { apply last_where_Ok. split.
      - rewrite b64_nth_error_below.
        destruct (Nat.ltb_spec k 999); [now rewrite Hk | lia].
      - intros j Hkj. rewrite b64_nth_error_below.
        destruct (Nat.ltb_spec j 999); [|discriminate].
        intros Hj. injection Hj as Hj. apply b64_below_iff in Hj.
        apply (Hmax j); [lia | exact Hj]. }
    now rewrite H.
Qed.

Lemma b64_row_cutoff_Raise (t : Q) (cs1 : list Q) (e : exn) :
  Binary64.row_cutoff t cs1 = Raise e
  <-> e = IndexError /\ Binary64.below t cs1 0 = false.
Proof.
  rewrite b64_row_cutoff_eq. split.
  - intros H.
    destruct (getitem_last (np_where (map (Binary64.below t cs1) (seq 0 999))))
      as [k|e'] eqn:E; [discriminate|].
    injection H as ->. apply last_where_Raise in E as [-> Hnone].
    split; [reflexivity|]. specialize (Hnone 0).
    rewrite b64_nth_error_below in Hnone. change (0 <? 999) with true in Hnone.
    destruct (Binary64.below t cs1 0); congruence.
  - intros [-> H0].
    assert (H : getitem_last
                  (np_where (map (Binary64.below t cs1) (seq 0 999)))
                = Raise IndexError).
    { apply last_where_Raise. split; [reflexivity|].
      intros j. rewrite b64_nth_error_below.
      destruct (Nat.ltb_spec j 999); [|discriminate].
      intros Hj. injection Hj as Hj.
      rewrite (b64_below_downward t cs1 0 j (Nat.le_0_l j) Hj) in H0.
      discriminate. }
    now rewrite H.
Qed.

Lemma b64_row_cutoff_defined (t : Q) (cs1 : list Q) :
  Binary64.below t cs1 0 = true -> exists c, Binary64.row_cutoff t cs1 = Ok c.
Proof.
  intros H0. destruct (Binary64.row_cutoff t cs1) as [c|e] eqn:E;
    [now exists c|].
  apply b64_row_cutoff_Raise in E as [_ E]. congruence.
Qed.

Lemma b64_similarity_cutoff_collect (cosine : list Q -> list Q -> Q)
      (X Y : matrix) (t : Q) :
  ncols X = ncols Y ->
  Binary64.similarity_cutoff cosine (Arr2 X) (Arr2 Y) t
  = collect (fun x => Binary64.row_cutoff t (map (cosine x) (mrows Y)))
            (mrows X).
Proof.
  intros HF. unfold Binary64.similarity_cutoff, cosine_similarity.
  rewrite HF, Nat.eqb_refl. cbn [bind mrows].
  rewrite for_each_append. cbn [app].
  rewrite collect_map.
  destruct (collect (fun x => Binary64.row_cutoff t (map (cosine x) (mrows Y)))
                    (mrows X)); reflexivity.
Qed.

(** What a returning call returns: one cutoff per query row, each the
    cutoff of that row. *)
Lemma b64_similarity_cutoff_returned (cosine : list Q -> list Q -> Q)
      (X Y : matrix) (threshold : Q) (cutoff_list : list Q) :
  Binary64.similarity_cutoff cosine (Arr2 X) (Arr2 Y) threshold
  = Ok cutoff_list ->
  length cutoff_list = length (mrows X)
  /\ Forall2 (fun x c =>
                Binary64.is_cutoff threshold (map (cosine x) (mrows Y)) c)
             (mrows X) cutoff_list.
Proof.
  intros H.
  assert (HF : ncols X = ncols Y).
  { unfold Binary64.similarity_cutoff, cosine_similarity in H.
    destruct (Nat.eqb_spec (ncols X) (ncols Y)); [assumption | discriminate]. }
  rewrite (b64_similarity_cutoff_collect cosine X Y _ HF) in H.
  apply collect_Ok_Forall2 in H.
  induction H as [|x c xs cs Hc _ IH].
  - split; constructor.
  - destruct IH as (Hlen & Hall). apply b64_row_cutoff_Ok in Hc.
    split; [simpl; now rewrite Hlen | now constructor].
Qed.

(** ** Statements about [Binary64.similarity_cutoff] *)

(** C1 (as amended): for every query and background matrix of equal width,
    [similarity_cutoff] histograms each query's similarities in the 999
    bins whose edges are the float64 values [k * 0.001], [k = 0..999] (the
    last bin closed at its right edge), accumulates the counts in
    ascending order and, provided the first bin of every query is strictly
    below the float64 product [threshold * B], returns for each query the
    left edge of the highest bin whose cumulative count is strictly below
    that product. *)
Theorem similarity_cutoff_highest_bin (cosine : list Q -> list Q -> Q)
        (X Y : matrix) (threshold : Q) :
  ncols X = ncols Y ->
  Forall (fun x => Binary64.bin_below threshold (map (cosine x) (mrows Y)) 0)
         (mrows X) ->
  exists cutoff_list,
    Binary64.similarity_cutoff cosine (Arr2 X) (Arr2 Y) threshold
    = Ok cutoff_list
    /\ Forall2 (fun x c =>
                  Binary64.is_cutoff threshold (map (cosine x) (mrows Y)) c)
               (mrows X) cutoff_list.
Proof.
  intros HF Hfirst.
  rewrite (b64_similarity_cutoff_collect cosine X Y threshold HF).
  induction Hfirst as [|x xs Hx _ IH].
  - exists []. split; [reflexivity | constructor].
  - destruct IH as (cs & Hcs & Hall).
    destruct (b64_row_cutoff_defined threshold (map (cosine x) (mrows Y)))
      as [c Hc]; [now apply b64_below_iff|].
    exists (c :: cs). cbn [collect]. rewrite Hc, Hcs. split; [reflexivity|].
    constructor; [now apply b64_row_cutoff_Ok | exact Hall].
Qed.


(** C10: whenever the first histogram bin of some query already reaches
    the float64 product [threshold * B], no bin qualifies, the selection
    [[-1]] has nothing to select, and [similarity_cutoff] raises
    [IndexError]. *)
Theorem similarity_cutoff_first_bin_full (cosine : list Q -> list Q -> Q)
        (X Y : matrix) (threshold : Q) :
  ncols X = ncols Y ->
  Exists (fun x =>
            (Binary64.fl (threshold * inject_Z (Z.of_nat (length (mrows Y))))
             <= inject_Z (Z.of_nat (Binary64.bin_count
                                      (map (cosine x) (mrows Y)) 0)))%Q)
         (mrows X) ->
  Binary64.similarity_cutoff cosine (Arr2 X) (Arr2 Y) threshold
  = Raise IndexError.
Proof.
  intros HF Hex.
  rewrite (b64_similarity_cutoff_collect cosine X Y threshold HF).
  apply collect_raises.
  - apply Forall_forall. intros x _ e He.
    now apply b64_row_cutoff_Raise in He as [-> _].
  - apply Exists_exists in Hex as (x & Hx & Hfull).
    apply Exists_exists. exists x. split; [exact Hx|].
    apply b64_row_cutoff_Raise. split; [reflexivity|].
    destruct (Binary64.below threshold (map (cosine x) (mrows Y)) 0) eqn:E;
      [|reflexivity].
    apply b64_below_iff in E. unfold Binary64.bin_below, Binary64.bound in E.
    rewrite length_map in E. cbn [Binary64.cum_count] in E.
    exfalso. exact (Qlt_not_le _ _ E Hfull).
Qed.

(** The cumulative count of bin [k] counts the similarities between 0 and
    the right edge of bin [k]. *)
Lemma b64_cum_count_upto (cs1 : list Q) (k : nat) :
  k <= 998 -> Binary64.cum_count cs1 k = count (Binary64.upto k) cs1.
Proof.
  induction k as [|k IH]; intros Hk; [reflexivity|].
  cbn [Binary64.cum_count]. rewrite IH by lia. unfold Binary64.bin_count.
  pose proof (b64_edge_le 0 (S k) (Nat.le_0_l _) ltac:(lia)) as H0.
  pose proof (b64_edge_lt (S k) (S (S k)) (Nat.lt_succ_diag_r _) ltac:(lia))
    as H1.
  symmetry. apply count_split; intros x;
    unfold Binary64.upto, Binary64.in_bin;
    destruct (Nat.eqb_spec k 998) as [|_]; try lia;
    destruct (S k =? 998);
    destruct (Qle_bool (Binary64.edge 0) x) eqn:E0;
    destruct (Qlt_bool x (Binary64.edge (S k))) eqn:E1;
    destruct (Qle_bool (Binary64.edge (S k)) x) eqn:E2;
    try destruct (Qle_bool x (Binary64.edge (S (S k)))) eqn:E3;
    try destruct (Qlt_bool x (Binary64.edge (S (S k)))) eqn:E4;
    try reflexivity;
    repeat match goal with
           | H : Qle_bool _ _ = true |- _ => apply Qle_bool_iff in H
           | H : Qle_bool _ _ = false |- _ => apply Qle_bool_false in H
           | H : Qlt_bool _ _ = true |- _ => apply Qlt_bool_iff in H
           | H : Qlt_bool _ _ = false |- _ => apply Qlt_bool_false in H
           end;
    exfalso; lra.
Qed.

(** X1: every cutoff that [similarity_cutoff] returns is a float64 edge
    [k * 0.001] with [k <= 998]; strictly fewer similarities than the
    float64 product [threshold * B] lie between 0 and the right edge of
    bin [k], and, unless [k = 998], at least that many lie between 0 and
    the right edge of the next bin. *)
Theorem similarity_cutoff_quantile (cosine : list Q -> list Q -> Q)
        (X Y : matrix) (threshold : Q) (cutoff_list : list Q) :
  Binary64.similarity_cutoff cosine (Arr2 X) (Arr2 Y) threshold
  = Ok cutoff_list ->
  Forall2
    (fun x c =>
       exists k,
         k <= 998 /\ c = Binary64.edge k
         /\ (inject_Z (Z.of_nat (count (Binary64.upto k)
                                       (map (cosine x) (mrows Y))))
             < Binary64.fl (threshold
                            * inject_Z (Z.of_nat (length (mrows Y)))))%Q
         /\ (k < 998 ->
             (Binary64.fl (threshold * inject_Z (Z.of_nat (length (mrows Y))))
              <= inject_Z (Z.of_nat (count (Binary64.upto (S k))
                                           (map (cosine x) (mrows Y)))))%Q))
    (mrows X) cutoff_list.
Proof.
  intros H. apply b64_similarity_cutoff_returned in H as (_ & H).
  eapply Forall2_impl; [|exact H]. cbv beta.
  intros x c (k & Hk & -> & Hbelow & Hmax).
  unfold Binary64.bin_below, Binary64.bound in *.
  rewrite length_map in *. exists k. split; [lia|]. split; [reflexivity|].
  split.
  - now rewrite <- b64_cum_count_upto by lia.
  - intros Hlt. rewrite <- b64_cum_count_upto by lia.
    apply Qnot_lt_le. apply Hmax. lia.
Qed.

(** ** Statements about [Binary64.similar_matches] *)

(** Past the early return and the two assertions, [similar_matches]
    returns the rounded similarity matrix and one index array per row. *)
Lemma b64_similar_matches_run (cosine : list Q -> list Q -> Q) (X Y : matrix)
      (cutoff_list : list Q) :
  mrows Y <> [] -> ncols X = ncols Y -> length cutoff_list = length (mrows X) ->
  Binary64.similar_matches cosine (Arr2 X) (Arr2 Y) cutoff_list
  = Ok (map (fun p => np_where (map (fun s => Qle_bool (snd p) s) (fst p)))
            (combine (mrows (Binary64.rounded_similarity cosine X Y))
                     cutoff_list),
        Arr2 (Binary64.rounded_similarity cosine X Y)).
Proof.
  intros HY HF Hlen. unfold Binary64.similar_matches, cosine_similarity.
  cbn [len shape1 bind].
  assert (Hne : (length (mrows Y) =? 0) = false).
  { destruct (mrows Y); [contradiction | reflexivity]. }
  rewrite Hne, HF, Hlen, !Nat.eqb_refl. cbn [assert bind].
  assert (Hsim : Binary64.np_round3
                   (Matrix (length (mrows Y))
                           (map (fun u => map (cosine u) (mrows Y)) (mrows X)))
                 = Binary64.rounded_similarity cosine X Y).
  { unfold Binary64.np_round3, Binary64.rounded_similarity. cbn [ncols mrows].
    f_equal. rewrite map_map. apply map_ext. intros x. now rewrite map_map. }
  rewrite Hsim.
  set (R := Binary64.rounded_similarity cosine X Y).
  rewrite (for_each_ext
             (fun i match_indices =>
                row <- getitem (mrows R) i ;;
                cutoff <- getitem cutoff_list i ;;
                Ok (match_indices
                      ++ [np_where (map (fun s => Qle_bool cutoff s) row)]))
             (fun i match_indices =>
                m <- (row <- getitem (mrows R) i ;;
                      cutoff <- getitem cutoff_list i ;;
                      Ok (np_where (map (fun s => Qle_bool cutoff s) row))) ;;
                Ok (match_indices ++ [m]))).
  2:{ intros i s. destruct (getitem (mrows R) i); [|reflexivity].
      cbn [bind]. destruct (getitem cutoff_list i); reflexivity. }
  rewrite for_each_append.
  assert (HQ : length (mrows X) = length (mrows R)).
  { unfold R, Binary64.rounded_similarity. cbn [mrows]. now rewrite length_map. }
  rewrite HQ.
  rewrite (collect_zip (fun row cutoff =>
                          np_where (map (fun s => Qle_bool cutoff s) row)))
    by congruence.
  reflexivity.
Qed.

(** C2 (as amended): for every query matrix, every non-empty candidate
    matrix of the same width and one cutoff per query, [similar_matches]
    returns the similarity matrix with every entry rounded to three
    decimals as [np.round] does in float64 and, for each query index,
    exactly the candidate indices whose rounded similarity is greater than
    or equal to that query's cutoff, in ascending order. *)
Theorem similar_matches_match_sets (cosine : list Q -> list Q -> Q)
        (X Y : matrix) (cutoff_list : list Q) :
  mrows Y <> [] -> ncols X = ncols Y -> length cutoff_list = length (mrows X) ->
  exists ms,
    Binary64.similar_matches cosine (Arr2 X) (Arr2 Y) cutoff_list
    = Ok (ms, Arr2 (Binary64.rounded_similarity cosine X Y))
    /\ length ms = length (mrows X)
    /\ Binary64.match_sets cosine X Y cutoff_list ms.
Proof.
  intros HY HF Hlen. eexists. split; [now apply b64_similar_matches_run|].
  split.
  - rewrite length_map, length_combine. unfold Binary64.rounded_similarity.
    cbn [mrows]. rewrite length_map. lia.
  - intros q x cutoff Hx Hc.
    exists (np_where (map (fun s => Qle_bool cutoff s)
                          (map (fun y => Binary64.round3 (cosine x y))
                               (mrows Y)))).
    split; [|split].
    + apply (map_nth_error
               (fun p => np_where (map (fun s => Qle_bool (snd p) s) (fst p)))
               q (combine (mrows (Binary64.rounded_similarity cosine X Y))
                          cutoff_list)
               (d := (map (fun y => Binary64.round3 (cosine x y)) (mrows Y),
                      cutoff))).
      apply nth_error_combine; [|exact Hc].
      unfold Binary64.rounded_similarity. cbn [mrows].
      now apply (map_nth_error
                   (fun x0 => map (fun y => Binary64.round3 (cosine x0 y))
                                  (mrows Y))).
    + apply where_from_sorted.
    + intros c. rewrite np_where_In, !nth_error_map.
      destruct (nth_error (mrows Y) c) as [y|]; cbn [option_map].
      * split.
        -- intros H. injection H as H. exists y.
           split; [reflexivity | now apply Qle_bool_iff].
        -- intros (y' & Hy & Hle). injection Hy as <-.
           f_equal. now apply Qle_bool_iff.
      * split; [discriminate | intros (y & Hy & _); discriminate].
Qed.

(** X10: cutoffs computed for a query matrix fit that matrix: passing them
    to [similar_matches] with any non-empty candidate matrix of the same
    width returns one index array per query. *)
Theorem similar_matches_after_cutoff (cosine : list Q -> list Q -> Q)
        (X B Y : matrix) (threshold : Q) (cutoff_list : list Q) :
  Binary64.similarity_cutoff cosine (Arr2 X) (Arr2 B) threshold
  = Ok cutoff_list ->
  mrows Y <> [] -> ncols X = ncols Y ->
  exists ms,
    Binary64.similar_matches cosine (Arr2 X) (Arr2 Y) cutoff_list
    = Ok (ms, Arr2 (Binary64.rounded_similarity cosine X Y))
    /\ length ms = length (mrows X).
Proof.
  intros H HY HF. apply b64_similarity_cutoff_returned in H as (Hlen & _).
  eexists. split; [now apply b64_similar_matches_run|].
  rewrite length_map, length_combine. unfold Binary64.rounded_similarity.
  cbn [mrows]. rewrite length_map. lia.
Qed.

(** ** Concrete runs in binary64 *)

(** C1 (counterexample): one query, two background vectors with
    similarities -0.6 and 0, threshold 0.95.  One similarity is counted,
    so every cumulative count is 1 < 1.9.  The source has 999 bins and
    returns the edge [998 * 0.001]; over [[0, 1)] in bins of width 0.001
    the highest bin starts at 0.999. *)
Lemma similarity_cutoff_not_over_unit_range :
  Binary64.similarity_cutoff
    Binary64.dot64 (Arr2 example_query)
    (Arr2 (Matrix 2 [[- Binary64.fl (3 # 5); Binary64.fl (4 # 5)]; [0; 1]]%Q))
    (Binary64.fl (95 # 100))
  = Ok [Binary64.edge 998]
  /\ cutoff_as_specified
       (Binary64.fl (95 # 100))
       (map (Binary64.dot64 [1; 0]%Q)
            [[- Binary64.fl (3 # 5); Binary64.fl (4 # 5)]; [0; 1]]%Q)
     = Some (999 # 1000)%Q
  /\ (Binary64.edge 998 < 999 # 1000)%Q.
Proof.
  split; [vm_compute; reflexivity|].
  split; [vm_compute; reflexivity|].
  vm_compute. reflexivity.
Qed.

Lemma similarity_cutoff_highest_bin_witness :
  exists cutoff_list,
    Binary64.similarity_cutoff Binary64.dot64 (Arr2 example_query)
                               (Arr2 example_rows64) (Binary64.fl (1 # 2))
    = Ok cutoff_list
    /\ Forall2 (fun x c =>
                  Binary64.is_cutoff (Binary64.fl (1 # 2))
                                     (map (Binary64.dot64 x)
                                          (mrows example_rows64)) c)
               (mrows example_query) cutoff_list.
Proof.
  apply (similarity_cutoff_highest_bin Binary64.dot64 example_query
           example_rows64 (Binary64.fl (1 # 2))).
  - reflexivity.
  - constructor; [vm_compute; reflexivity | constructor].
Defined.


Lemma similarity_cutoff_first_bin_full_witness :
  (0 < Binary64.fl (95 # 100))%Q /\ (Binary64.fl (95 # 100) <= 1)%Q
  /\ mrows (Matrix 2 [[0; 1]]%Q) <> []
  /\ Binary64.similarity_cutoff Binary64.dot64 (Arr2 example_query)
                                (Arr2 (Matrix 2 [[0; 1]]%Q))
                                (Binary64.fl (95 # 100))
     = Raise IndexError.
Proof.
  split; [vm_compute; reflexivity|].
  split; [vm_compute; discriminate|]. split; [discriminate|].
  apply (similarity_cutoff_first_bin_full Binary64.dot64 example_query
           (Matrix 2 [[0; 1]]%Q) (Binary64.fl (95 # 100))).
  - reflexivity.
  - constructor. vm_compute. discriminate.
Defined.

Lemma similarity_cutoff_quantile_witness :
  Forall2
    (fun x c =>
       exists k,
         k <= 998 /\ c = Binary64.edge k
         /\ (inject_Z (Z.of_nat (count (Binary64.upto k)
                                       (map (Binary64.dot64 x)
                                            (mrows example_rows64))))
             < Binary64.fl (Binary64.fl (1 # 2)
                            * inject_Z (Z.of_nat
                                          (length (mrows example_rows64)))))%Q
         /\ (k < 998 ->
             (Binary64.fl (Binary64.fl (1 # 2)
                           * inject_Z (Z.of_nat
                                         (length (mrows example_rows64))))
              <= inject_Z (Z.of_nat (count (Binary64.upto (S k))
                                           (map (Binary64.dot64 x)
                                                (mrows example_rows64)))))%Q))
    (mrows example_query) [Binary64.edge 599].
Proof.
  apply (similarity_cutoff_quantile Binary64.dot64 example_query
           example_rows64 (Binary64.fl (1 # 2))).
  vm_compute. reflexivity.
Defined.

(** C2 (counterexample): one query, a candidate matrix of the same width
    with no rows, one cutoff.  The call returns the empty match list,
    which has no match set for query 0. *)
Lemma similar_matches_no_match_set_without_candidates :
  Binary64.similar_matches Binary64.dot64 (Arr2 example_query)
                           (Arr2 (Matrix 2 [])) [Binary64.fl (1 # 2)]
  = Ok ([], Arr1 [])
  /\ ~ Binary64.match_sets Binary64.dot64 example_query (Matrix 2 [])
                           [Binary64.fl (1 # 2)] [].
Proof.
  split; [reflexivity|].
  intros H.
  destruct (H 0 [1; 0]%Q (Binary64.fl (1 # 2)) eq_refl eq_refl)
    as (m & Hm & _).
  discriminate.
Qed.

Lemma similar_matches_match_sets_witness :
  exists ms,
    Binary64.similar_matches Binary64.dot64 (Arr2 example_query)
                             (Arr2 example_rows64) [Binary64.fl (6 # 10)]
    = Ok (ms, Arr2 (Binary64.rounded_similarity Binary64.dot64 example_query
                                                example_rows64))
    /\ length ms = length (mrows example_query)
    /\ Binary64.match_sets Binary64.dot64 example_query example_rows64
                           [Binary64.fl (6 # 10)] ms.
Proof.
  apply (similar_matches_match_sets Binary64.dot64 example_query
           example_rows64 [Binary64.fl (6 # 10)]).
  - discriminate.
  - reflexivity.
  - reflexivity.
Defined.

Lemma similar_matches_after_cutoff_witness :
  exists ms,
    Binary64.similar_matches Binary64.dot64 (Arr2 example_query)
                             (Arr2 example_rows64) [Binary64.edge 599]
    = Ok (ms, Arr2 (Binary64.rounded_similarity Binary64.dot64 example_query
                                                example_rows64))
    /\ length ms = length (mrows example_query).
Proof.
  apply (similar_matches_after_cutoff Binary64.dot64 example_query
           example_rows64 example_rows64 (Binary64.fl (1 # 2))
           [Binary64.edge 599]).
  - vm_compute. reflexivity.
  - discriminate.
  - reflexivity.
Defined.
